(** * digitalDocumentSignature-backend: the signature-application engine

    A shallow embedding of [src/utils/pdf-signer.js], of the three handlers
    of [src/routes/api.js] ([/apply-signatures], and [/sign-pdf] and
    [/upload-pdf] with the queue they share) and of the schema of
    [src/models/Document.js].

    The two files are JavaScript over the [pdf-lib] package.  The code of this
    repository is embedded as it is written: every [throw], every
    [try]/[catch], every [console.warn] and [console.error] is a step of the
    monad [M] below.  The package [pdf-lib] and Node's [Buffer] are not code
    of this repository; what the repository relies on is collected in the
    record [PdfLib], and every theorem holds for every such library.
    [JSON.parse] is a variable of the section of the handler.

    Conventions.
    - A JavaScript string is the [string] of its UTF-16 code units, for
      strings whose units are all below 256: [length], [substring], [split]
      and [startsWith] count units, and [toLowerCase] and the white space
      of [trim] and [parseInt] are those of these units.
    - A finite JavaScript number is a rational [Q] (no rounding); [NaN] is a
      separate value of [JS.number].  A page number is an integer [Z].
    - [console.log] tracing is left out; [console.warn] and [console.error]
      are recorded, in order, in the log of [M].
    - Requests are served one after the other; the disk, the database and
      [path.join] are the record [Env]. *)

From Stdlib Require Import ZArith QArith Strings.String Strings.Ascii.
From Stdlib Require Import DecimalString Lia.
From stdpp Require Import base list strings gmap.

Local Open Scope string_scope.
Local Open Scope list_scope.

(* ===================================================================== *)
(** * JavaScript values and built-ins *)
(* ===================================================================== *)

Module JS.

(** A value that is thrown.  It is an [Error] object, with the name of its
    constructor and its [message], or a value that is not an [Error] object
    and has no [message]: JavaScript throws any value, and the PNG decoder
    of pdf-lib throws strings.  Such a value is given by its text. *)
Inductive Error : Type :=
| mkError (name message : string)
| not_an_Error (text : string).

(** [e.message]: [None] is [undefined]. *)
Definition message_of (e : Error) : option string :=
  match e with
  | mkError _ message => Some message
  | not_an_Error _ => None
  end.

(** [e.message] as a template literal and [console] print it. *)
Definition message (e : Error) : string :=
  match message_of e with
  | Some message => message
  | None => "undefined"
  end.

(** [new Error(msg)] and the engine's [TypeError]. *)
Definition newError (msg : string) : Error := mkError "Error" msg.
Definition TypeError (msg : string) : Error := mkError "TypeError" msg.

(** The outcome of an expression that may throw. *)
Inductive result (A : Type) : Type :=
| Ok (a : A)
| Throw (e : Error).
Arguments Ok {A} a.
Arguments Throw {A} e.

(** A number: [NaN] or a finite value. *)
Inductive number : Type :=
| NaN
| Num (q : Q).

(** [a < b] and [a > b] on finite numbers. *)
Definition lt (a b : Q) : bool := negb (Qle_bool b a).
Definition gt (a b : Q) : bool := lt b a.

(** [`${n}`] for an integer. *)
Definition String_of_Z (z : Z) : string := NilZero.string_of_int (Z.to_int z).
Definition String_of_nat (n : nat) : string := String_of_Z (Z.of_nat n).

(** [s.toLowerCase()]: the capitals among the units below 256 are A to Z
    and U+00C0 to U+00DE without the sign U+00D7. *)
Definition lowerChar (c : ascii) : ascii :=
  let n := nat_of_ascii c in
  if (65 <=? n)%nat && (n <=? 90)%nat then ascii_of_nat (n + 32)
  else if (192 <=? n)%nat && (n <=? 222)%nat && negb (n =? 215)%nat
       then ascii_of_nat (n + 32)
  else c.

Fixpoint toLowerCase (s : string) : string :=
  match s with
  | EmptyString => EmptyString
  | String c s' => String (lowerChar c) (toLowerCase s')
  end.

(** [s.startsWith(p)]. *)
Definition startsWith (s p : string) : bool := String.prefix p s.

(** [s.split(sep)] for a separator of one character: never empty. *)
Fixpoint split (sep : ascii) (s : string) : list string :=
  match s with
  | EmptyString => [EmptyString]
  | String c s' =>
      if Ascii.eqb c sep then EmptyString :: split sep s'
      else match split sep s' with
           | h :: t => String c h :: t
           | [] => [String c EmptyString]
           end
  end.

(** [s.substring(from, to)] for [from <= to]: clamped to the string. *)
Definition substring (from to : nat) (s : string) : string :=
  String.substring from (to - from) s.

(** ** [parseInt(s, 16)] *)

(** White space and line terminators among the units below 256: TAB, LF,
    VT, FF, CR, the space and the no-break space U+00A0. *)
Definition isWhiteSpace (c : ascii) : bool :=
  let n := nat_of_ascii c in
  ((9 <=? n)%nat && (n <=? 13)%nat) || (n =? 32)%nat || (n =? 160)%nat.

Fixpoint trimStart (s : string) : string :=
  match s with
  | String c s' => if isWhiteSpace c then trimStart s' else s
  | EmptyString => EmptyString
  end.

(** The value of a hexadecimal digit. *)
Definition hexDigit (c : ascii) : option Z :=
  let n := nat_of_ascii c in
  if (48 <=? n)%nat && (n <=? 57)%nat then Some (Z.of_nat (n - 48))
  else if (65 <=? n)%nat && (n <=? 70)%nat then Some (Z.of_nat (n - 55))
  else if (97 <=? n)%nat && (n <=? 102)%nat then Some (Z.of_nat (n - 87))
  else None.

(** The longest prefix of digits, read in base 16; [None] when empty. *)
Fixpoint hexDigits (acc : option Z) (s : string) : option Z :=
  match s with
  | EmptyString => acc
  | String c s' =>
      match hexDigit c with
      | Some d =>
          hexDigits (Some (16 * match acc with Some a => a | None => 0 end + d)%Z) s'
      | None => acc
      end
  end.

Definition stripSign (s : string) : Z * string :=
  match s with
  | String "-" s' => ((-1)%Z, s')
  | String "+" s' => (1%Z, s')
  | _ => (1%Z, s)
  end.

Definition strip0x (s : string) : string :=
  match s with
  | String "0" (String "x" s') => s'
  | String "0" (String "X" s') => s'
  | _ => s
  end.

(** [parseInt(s, 16)]: white space, a sign, a [0x] prefix, then digits;
    [None] is [NaN]. *)
Definition parseInt16 (s : string) : option Z :=
  let '(sign, s1) := stripSign (trimStart s) in
  match hexDigits None (strip0x s1) with
  | Some v => Some (sign * v)%Z
  | None => None
  end.

(** [n / 255] for the result of [parseInt]. *)
Definition div255 (n : option Z) : number :=
  match n with
  | Some z => Num (Qmake z 255)
  | None => NaN
  end.

End JS.

Export JS (result, Ok, Throw, number, NaN, Num).

(* ===================================================================== *)
(** * Console events and the monad of the code *)
(* ===================================================================== *)

(** What the code writes through [console.warn] and [console.error]; the
    comment of each constructor is the place of the call. *)
Inductive event : Type :=
| warn_coordinates (x y pageWidth pageHeight : Q)
    (* pdf-signer.js 33 and 100 *)
| warn_font_not_found (fontName : string)
    (* pdf-signer.js 122 *)
| error_embedding_font (fontName : option string) (e : JS.Error)
    (* pdf-signer.js 126 *)
| error_in (fn : string) (e : JS.Error)
    (* pdf-signer.js 63 and 155 *)
| error_text (msg : string)
    (* api.js 116, 126 and 137 *)
| warn_unknown_type (type : string)
    (* api.js 156 *)
| error_applying_signature (position : nat) (e : JS.Error)
    (* api.js 159 *)
| error_applying_signatures (message : string)
    (* api.js 174 *)
| error_stack (e : JS.Error).
    (* api.js 175 *)

Inductive level : Type := console_warn | console_error.

Definition level_of (ev : event) : level :=
  match ev with
  | warn_coordinates _ _ _ _ | warn_font_not_found _ | warn_unknown_type _ =>
      console_warn
  | _ => console_error
  end.

(** A computation: the events it wrote, and its value or the error thrown. *)
Definition M (A : Type) : Type := list event * result A.

Definition ret {A} (a : A) : M A := ([], Ok a).
Definition throw {A} (e : JS.Error) : M A := ([], Throw e).
Definition lift {A} (r : result A) : M A := ([], r).
Definition console (ev : event) : M unit := ([ev], Ok tt).

Definition bind {A B} (m : M A) (k : A -> M B) : M B :=
  match m with
  | (l, Ok a) => let '(l', r) := k a in (l ++ l', r)
  | (l, Throw e) => (l, Throw e)
  end.

(** [try { m } catch (e) { h e }]. *)
Definition try_catch {A} (m : M A) (h : JS.Error -> M A) : M A :=
  match m with
  | (l, Throw e) => let '(l', r) := h e in (l ++ l', r)
  | (l, Ok a) => (l, Ok a)
  end.

(** [if (b) { m }]. *)
Definition when_ (b : bool) (m : M unit) : M unit :=
  if b then m else ret tt.

Declare Scope js_scope.
Delimit Scope js_scope with js.
Notation "'let*' x ':=' m 'in' k" := (bind m (fun x => k))
  (at level 10, x pattern, m at level 100, k at level 200) : js_scope.
Notation "m ;; k" := (bind m (fun _ => k))
  (at level 100, k at level 200, right associativity) : js_scope.
Local Open Scope js_scope.

(* ===================================================================== *)
(** * What the code uses of pdf-lib and of Node *)
(* ===================================================================== *)

Definition Buffer : Type := list Byte.byte.

(** The members of [StandardFonts] that the code names. *)
Inductive StandardFonts : Type :=
| Helvetica
| HelveticaBold
| TimesRoman
| Courier.

Record PDFFont := mkFont { font_base : StandardFonts }.

Record PDFImage := mkImage { image_width : Q; image_height : Q }.

(** The object [{ width, height }] returned by [image.scale]. *)
Record Dims := mkDims { width : Q; height : Q }.

(** [image.scale(factor)] of pdf-lib: both sides times [factor]. *)
Definition scale (image : PDFImage) (factor : Q) : Dims :=
  {| width := image_width image * factor;
     height := image_height image * factor |}.

(** The colour object built by [rgb]. *)
Record RGB := mkRGB { red : Q; green : Q; blue : Q }.

(** A call of [page.drawImage] or [page.drawText], with the options the
    caller passed. *)
Inductive DrawOp : Type :=
| drawImage (image : PDFImage) (x y width height : Q)
| drawText (text : string) (x y : Q) (font : PDFFont) (size : option Q)
           (color : RGB).

Record PDFPage := mkPage {
  getWidth : Q;
  getHeight : Q;
  page_ops : list DrawOp
}.

Record PDFDocument := mkDoc {
  getPages : list PDFPage;
  doc_fonts : list PDFFont;
  doc_images : list PDFImage
}.

(** The behaviour of the library that the code cannot see into: parsing and
    serialising a document, decoding an image, building a font embedder,
    encoding a text in a font, decoding base64, the wording of a range
    error.  [PDFDocument_save] is taken to return always. *)
Record PdfLib := mkPdfLib {
  PDFDocument_load : Buffer -> result PDFDocument;
  PDFDocument_save : PDFDocument -> Buffer;
  PngEmbedder_for : Buffer -> result PDFImage;
  JpegEmbedder_for : Buffer -> result PDFImage;
  StandardFontEmbedder_for : StandardFonts -> result PDFFont;
  encodeText : PDFFont -> string -> result unit;
  base64_decode : string -> Buffer;
  assertRange_message : string -> number -> string
}.

(** Messages of the engine's own [TypeError]s (the wording of V8 and Node). *)
Definition undefined_property (prop : string) : JS.Error :=
  JS.TypeError ("Cannot read properties of undefined (reading '" +:+ prop +:+ "')").

Definition null_property (prop : string) : JS.Error :=
  JS.TypeError ("Cannot read properties of null (reading '" +:+ prop +:+ "')").

Definition not_a_function (callee : string) : JS.Error :=
  JS.TypeError (callee +:+ " is not a function").

Definition Buffer_from_undefined : JS.Error :=
  JS.TypeError "The first argument must be of type string or an instance of Buffer, ArrayBuffer, or Array or an Array-like Object. Received undefined".

(** Adds [op] to the page of index [i]: the page object is shared with the
    document, so drawing on it changes the document. *)
Definition add_op (op : DrawOp) (page : PDFPage) : PDFPage :=
  {| getWidth := getWidth page;
     getHeight := getHeight page;
     page_ops := page_ops page ++ [op] |}.

Definition draw (pdfDoc : PDFDocument) (i : nat) (op : DrawOp) : PDFDocument :=
  {| getPages := alter (add_op op) i (getPages pdfDoc);
     doc_fonts := doc_fonts pdfDoc;
     doc_images := doc_images pdfDoc |}.

(** An argument where the code expects a string: a string, [undefined],
    [null], or a value of another type (a number, a boolean, an array, an
    object of JSON or of a form), which has no method of a string. *)
Inductive Argument : Type :=
| arg_string (s : string)
| arg_undefined
| arg_null
| arg_other.

Section PdfSigner.

Variable lib : PdfLib.

(** [Buffer.from(v, 'base64')]: [None] is [undefined]. *)
Definition Buffer_from (v : option string) : M Buffer :=
  match v with
  | Some s => ret (base64_decode lib s)
  | None => throw Buffer_from_undefined
  end.

(** [pdfDoc.embedPng], [pdfDoc.embedJpg], [pdfDoc.embedFont]: the new
    resource is registered in the document. *)
Definition register_image (pdfDoc : PDFDocument) (image : PDFImage)
  : PDFDocument :=
  {| getPages := getPages pdfDoc;
     doc_fonts := doc_fonts pdfDoc;
     doc_images := doc_images pdfDoc ++ [image] |}.

Definition register_font (pdfDoc : PDFDocument) (font : PDFFont)
  : PDFDocument :=
  {| getPages := getPages pdfDoc;
     doc_fonts := doc_fonts pdfDoc ++ [font];
     doc_images := doc_images pdfDoc |}.

Definition embedPng (pdfDoc : PDFDocument) (bytes : Buffer)
  : M (PDFImage * PDFDocument) :=
  let* image := lift (PngEmbedder_for lib bytes) in
  ret (image, register_image pdfDoc image).

Definition embedJpg (pdfDoc : PDFDocument) (bytes : Buffer)
  : M (PDFImage * PDFDocument) :=
  let* image := lift (JpegEmbedder_for lib bytes) in
  ret (image, register_image pdfDoc image).

Definition embedFont (pdfDoc : PDFDocument) (f : StandardFonts)
  : M (PDFFont * PDFDocument) :=
  let* font := lift (StandardFontEmbedder_for lib f) in
  ret (font, register_font pdfDoc font).

(** [rgb(r, g, b)] of pdf-lib: each channel is asserted to lie in [0, 1]. *)
Definition assertRange (value : number) (valueName : string) : M Q :=
  match value with
  | Num q =>
      if Qle_bool 0 q && Qle_bool q 1 then ret q
      else throw (JS.newError (assertRange_message lib valueName value))
  | NaN => throw (JS.newError (assertRange_message lib valueName value))
  end.

Definition rgb (r g b : number) : M RGB :=
  let* r' := assertRange r "red" in
  let* g' := assertRange g "green" in
  let* b' := assertRange b "blue" in
  ret (mkRGB r' g' b').

(** [page.drawText]: the text is encoded in the font, which may throw. *)
Definition page_drawText (pdfDoc : PDFDocument) (i : nat) (text : string)
    (x y : Q) (font : PDFFont) (size : option Q) (color : RGB)
  : M PDFDocument :=
  lift (encodeText lib font text) ;;
  ret (draw pdfDoc i (drawText text x y font size color)).

(** [page.drawImage]. *)
Definition page_drawImage (pdfDoc : PDFDocument) (i : nat)
    (image : PDFImage) (x y w h : Q) : M PDFDocument :=
  ret (draw pdfDoc i (drawImage image x y w h)).

(** ** [signPdfWithImage] (pdf-signer.js 12-66) *)

Definition PageOutOfBounds (pageNumber : Z) (pageCount : nat) : JS.Error :=
  JS.newError ("Page number " +:+ JS.String_of_Z pageNumber
               +:+ " is out of bounds. PDF has "
               +:+ JS.String_of_nat pageCount +:+ " pages.").

Definition UnsupportedImageFormat : JS.Error :=
  JS.newError "Unsupported image format. Only PNG and JPEG are supported.".

(** [pageNumber < 1 || pageNumber > pages.length]. *)
Definition out_of_bounds (pageNumber : Z) (pages : list PDFPage) : bool :=
  (pageNumber <? 1)%Z || (pageNumber >? Z.of_nat (length pages))%Z.

(** [pages[pageNumber - 1]], then [page.getWidth()] on it. *)
Definition page_at (pages : list PDFPage) (pageNumber : Z) : M PDFPage :=
  match pages !! Z.to_nat (pageNumber - 1) with
  | Some page => ret page
  | None => throw (undefined_property "getWidth")
  end.

(** [x < 0 || y < 0 || x > pageWidth || y > pageHeight]. *)
Definition outside_page (x y pageWidth pageHeight : Q) : bool :=
  JS.lt x 0 || JS.lt y 0 || JS.gt x pageWidth || JS.gt y pageHeight.

(** Lines 18-34, shared word for word by the two functions (85-101). *)
Definition locate_page (pdfBytes : Buffer) (x y : Q) (pageNumber : Z)
  : M (PDFDocument * nat) :=
  let* pdfDoc := lift (PDFDocument_load lib pdfBytes) in
  let pages := getPages pdfDoc in
  when_ (out_of_bounds pageNumber pages)
    (throw (PageOutOfBounds pageNumber (length pages))) ;;
  let* page := page_at pages pageNumber in
  let pageWidth := getWidth page in
  let pageHeight := getHeight page in
  when_ (outside_page x y pageWidth pageHeight)
    (console (warn_coordinates x y pageWidth pageHeight)) ;;
  ret (pdfDoc, Z.to_nat (pageNumber - 1)).

(** Lines 37-45: the payload is decoded first, then the prefix selects the
    embedder. *)
Definition embedImage (pdfDoc : PDFDocument) (imageDataUrl : string)
  : M (PDFImage * PDFDocument) :=
  let* imageBytes := Buffer_from (JS.split "," imageDataUrl !! 1%nat) in
  if JS.startsWith imageDataUrl "data:image/png" then
    embedPng pdfDoc imageBytes
  else if JS.startsWith imageDataUrl "data:image/jpeg" then
    embedJpg pdfDoc imageBytes
  else throw UnsupportedImageFormat.

(** Lines 18-61: the body of the [try]. *)
Definition signPdfWithImage_try (pdfBytes : Buffer) (imageDataUrl : string)
    (x y : Q) (pageNumber : Z) : M Buffer :=
  let* (pdfDoc, i) := locate_page pdfBytes x y pageNumber in
  let* (image, pdfDoc) := embedImage pdfDoc imageDataUrl in
  let imageDims := scale image 0.2 in
  let* pdfDoc :=
    page_drawImage pdfDoc i image x y (width imageDims) (height imageDims) in
  ret (PDFDocument_save lib pdfDoc).

(** The function on an [imageDataUrl] that is a string, as its signature
    documents it: line 15 reads the length of the string for the trace,
    and lines 17-65 are the [try] and its [catch]. *)
Definition signPdfWithImage (pdfBytes : Buffer) (imageDataUrl : string)
    (x y : Q) (pageNumber : Z) : M Buffer :=
  try_catch (signPdfWithImage_try pdfBytes imageDataUrl x y pageNumber)
    (fun error => console (error_in "signPdfWithImage" error) ;; throw error).

(** The function on whatever a caller passes for [imageDataUrl].  Line 15
    reads [imageDataUrl.length] before the [try]: on [undefined] and on
    [null] the [TypeError] leaves the function at once, past the [catch] of
    line 62, and nothing is logged.  A value of another type passes line 15
    (its [length] is a value or [undefined]) and has no method [split]:
    line 37 throws inside the [try]. *)
Definition signPdfWithImage_any (pdfBytes : Buffer) (imageDataUrl : Argument)
    (x y : Q) (pageNumber : Z) : M Buffer :=
  match imageDataUrl with
  | arg_string s => signPdfWithImage pdfBytes s x y pageNumber
  | arg_undefined => throw (undefined_property "length")
  | arg_null => throw (null_property "length")
  | arg_other =>
      try_catch
        (let* (pdfDoc, i) := locate_page pdfBytes x y pageNumber in
         throw (not_a_function "imageDataUrl.split"))
        (fun error =>
           console (error_in "signPdfWithImage" error) ;; throw error)
  end.

(** ** [signPdfWithText] (pdf-signer.js 80-158) *)

(** Lines 103-128: the [switch] on [fontName.toLowerCase()] inside its own
    [try], and the [catch] that embeds Helvetica.  [None] is a [fontName]
    that is [undefined]. *)
Definition resolveFont (pdfDoc : PDFDocument) (fontName : option string)
  : M (PDFFont * PDFDocument) :=
  try_catch
    (match fontName with
     | None => throw (undefined_property "toLowerCase")
     | Some name =>
         let key := JS.toLowerCase name in
         if String.eqb key "helvetica" then embedFont pdfDoc Helvetica
         else if String.eqb key "helvetica-bold" then
           embedFont pdfDoc HelveticaBold
         else if String.eqb key "times-roman" then
           embedFont pdfDoc TimesRoman
         else if String.eqb key "courier" then embedFont pdfDoc Courier
         else
           console (warn_font_not_found name) ;;
           embedFont pdfDoc Helvetica
     end)
    (fun e =>
       console (error_embedding_font fontName e) ;;
       embedFont pdfDoc Helvetica).

(** Lines 131-136.  [None] is a [colorHex] that is [undefined]. *)
Definition hexToRgb (hex : option string) : M RGB :=
  match hex with
  | None => throw (undefined_property "substring")
  | Some hex =>
      let r := JS.div255 (JS.parseInt16 (JS.substring 1 3 hex)) in
      let g := JS.div255 (JS.parseInt16 (JS.substring 3 5 hex)) in
      let b := JS.div255 (JS.parseInt16 (JS.substring 5 7 hex)) in
      rgb r g b
  end.

Definition signPdfWithText_try (pdfBytes : Buffer) (text : string)
    (x y : Q) (pageNumber : Z) (fontName : option string)
    (fontSize : option Q) (colorHex : option string) : M Buffer :=
  let* (pdfDoc, i) := locate_page pdfBytes x y pageNumber in
  let* (font, pdfDoc) := resolveFont pdfDoc fontName in
  let* color := hexToRgb colorHex in
  let* pdfDoc := page_drawText pdfDoc i text x y font fontSize color in
  ret (PDFDocument_save lib pdfDoc).

Definition signPdfWithText (pdfBytes : Buffer) (text : string)
    (x y : Q) (pageNumber : Z) (fontName : option string)
    (fontSize : option Q) (colorHex : option string) : M Buffer :=
  try_catch
    (signPdfWithText_try pdfBytes text x y pageNumber fontName fontSize
       colorHex)
    (fun error => console (error_in "signPdfWithText" error) ;; throw error).

End PdfSigner.

(* ===================================================================== *)
(** * The handler of [POST /api/apply-signatures] (api.js 111-181) *)
(* ===================================================================== *)

(** An element of [signaturesArray]: a signature object whose [type] and
    [data] are strings, whose [x] and [y] are numbers and whose [pageNumber]
    is an integer.  The three fields of a text signature may be absent
    ([None] is [undefined]).  What [signPdfWithImage] does with a [data]
    that is not a string is [signPdfWithImage_any]. *)
Module Sig.
Record t := mk {
  type : string;
  data : string;
  x : Q;
  y : Q;
  pageNumber : Z;
  font : option string;
  fontSize : option Q;
  color : option string
}.
End Sig.

(** What [JSON.parse] returns on the text of [req.body.signatures], as far
    as lines 134-143 tell values apart: an array of signature objects; a
    string, of which only the number of its UTF-16 units counts; [null]; and
    the values whose [length] is [undefined] (a number, a boolean, an object
    without a key [length]).  An array with an element that is not a
    signature object, and an object with a key [length], are not
    represented. *)
Inductive Parsed : Type :=
| array_of (signaturesArray : list Sig.t)
| string_of_length (units : nat)
| parsed_null
| without_length.

(** One warning of line 156 for each unit of a string: its [type] is
    [undefined]. *)
Fixpoint warn_each (units : nat) : M unit :=
  match units with
  | O => ret tt
  | S units => console (warn_unknown_type "undefined") ;; warn_each units
  end.

(** What the handler sends. *)
Inductive Response : Type :=
| send_pdf (body : Buffer)
    (* Content-Type application/pdf, attachment signed_document.pdf *)
| json_msg (status : nat) (msg : string)
    (* res.status(status).json({ msg }) *)
| json_error (status : nat) (error details : string)
    (* res.status(status).json({ error, details }) *)
| json_error_only (status : nat) (error : string).
    (* the same with details undefined: the key is left out *)

Section Api.

Variable lib : PdfLib.

(** Lines 147-157: the body of the inner [try]. *)
Definition apply_one (signature : Sig.t) (pdfBytes : Buffer) : M Buffer :=
  if String.eqb (Sig.type signature) "image" then
    signPdfWithImage lib pdfBytes (Sig.data signature) (Sig.x signature)
      (Sig.y signature) (Sig.pageNumber signature)
  else if String.eqb (Sig.type signature) "text" then
    signPdfWithText lib pdfBytes (Sig.data signature) (Sig.x signature)
      (Sig.y signature) (Sig.pageNumber signature) (Sig.font signature)
      (Sig.fontSize signature) (Sig.color signature)
  else
    console (warn_unknown_type (Sig.type signature)) ;;
    ret pdfBytes.

(** The error thrown by the inner [catch] (line 160). *)
Definition FailedToApply (position : nat) (signatureError : JS.Error)
  : JS.Error :=
  JS.newError ("Failed to apply signature " +:+ JS.String_of_nat position
               +:+ ": " +:+ JS.message signatureError).

(** Lines 142-162: the [for] loop, at index [i], over the elements of
    [signaturesArray] from [i] on. *)
Fixpoint apply_loop (i : nat) (signaturesArray : list Sig.t)
    (pdfBytes : Buffer) : M Buffer :=
  match signaturesArray with
  | [] => ret pdfBytes
  | signature :: rest =>
      let* pdfBytes :=
        try_catch (apply_one signature pdfBytes)
          (fun signatureError =>
             console (error_applying_signature (i + 1) signatureError) ;;
             throw (FailedToApply (i + 1) signatureError)) in
      apply_loop (S i) rest pdfBytes
  end.

(** Lines 136-171, inside the outer [try]. *)
Definition applySignatures_try (pdfBytes : Buffer)
    (signaturesArray : list Sig.t) : M Response :=
  if (length signaturesArray =? 0)%nat then
    console (error_text "No signatures in array") ;;
    ret (json_msg 400 "No signatures provided")
  else
    let* pdfBytes := apply_loop 0 signaturesArray pdfBytes in
    ret (send_pdf pdfBytes).

(** Lines 176-179: the answer of the outer [catch], with [err.message] as
    its details. *)
Definition server_error (err : JS.Error) : Response :=
  match JS.message_of err with
  | Some details =>
      json_error 500 "Server Error during signature application" details
  | None => json_error_only 500 "Server Error during signature application"
  end.

(** Lines 173-180: the outer [catch]. *)
Definition catch_all (m : M Response) : list event * Response :=
  match m with
  | (l, Ok res) => (l, res)
  | (l, Throw err) =>
      (l ++ [error_applying_signatures (JS.message err); error_stack err],
       server_error err)
  end.

(** The engine entry: the handler from the parsed array on. *)
Definition applySignatures (pdfBytes : Buffer)
    (signaturesArray : list Sig.t) : list event * Response :=
  catch_all (applySignatures_try pdfBytes signaturesArray).

(** Lines 134-171 on what [JSON.parse] returned.  An array goes through
    the guard and the loop.  A string has a [length] too, and each
    [signaturesArray[i]] is then a string of one unit, whose [type] is
    [undefined]: the else branch of line 155 warns.  Reading [null.length]
    throws on line 134.  With [length] undefined, [undefined === 0] on
    line 136 and [0 < undefined] on line 142 are both false: no guard, no
    turn of the loop, and the bytes of the file are sent as they came. *)
Definition apply_parsed (pdfBytes : Buffer) (parsed : Parsed) : M Response :=
  match parsed with
  | array_of signaturesArray => applySignatures_try pdfBytes signaturesArray
  | string_of_length units =>
      if (units =? 0)%nat then
        console (error_text "No signatures in array") ;;
        ret (json_msg 400 "No signatures provided")
      else
        warn_each units ;;
        ret (send_pdf pdfBytes)
  | parsed_null => throw (null_property "length")
  | without_length => ret (send_pdf pdfBytes)
  end.

(** The whole handler.  [file] is [req.file.buffer], [signatures] is
    [req.body.signatures]; [JSON_parse] is [JSON.parse]: it returns a value
    for a text that is JSON, and throws a [SyntaxError] otherwise. *)
Variable JSON_parse : string -> result Parsed.

Definition falsy (signatures : option string) : bool :=
  match signatures with
  | None => true
  | Some s => String.eqb s ""
  end.

Definition apply_signatures_route (file : option Buffer)
    (signatures : option string) : list event * Response :=
  catch_all
    (match file with
     | None =>
         console (error_text "No PDF file provided") ;;
         ret (json_msg 400 "No PDF file provided")
     | Some pdfBytes =>
         if falsy signatures then
           console (error_text "No signatures provided") ;;
           ret (json_msg 400 "No signatures provided")
         else
           let* signaturesArray :=
             lift (JSON_parse (default "" signatures)) in
           apply_parsed pdfBytes signaturesArray
     end).

End Api.

(* ===================================================================== *)
(** * The shared queue: [POST /api/sign-pdf] and [POST /api/upload-pdf]
      (api.js 17-106) *)
(* ===================================================================== *)

(** The module variable [signatureQueue] of line 17, with the property
    [pdfBytes] that line 80 hangs on the array.  Assigning a new array
    (lines 29 and 95) drops the property with the old array. *)
Record Server := mkServer {
  signatureQueue : list Sig.t;
  signatureQueue_pdfBytes : option Buffer
}.

(** [signatureQueue = []]. *)
Definition fresh_queue : Server := mkServer [] None.

(** What the two handlers send beyond the responses of [Response]. *)
Inductive Reply : Type :=
| reply (res : Response)
| send_text (status : nat) (body : string)
    (* res.status(status).send(body) *)
| json_uploaded (msg fileName documentId : string).
    (* res.status(200).json({ msg, fileName, documentId }) *)

(** [PDFDocument.load(undefined)]: the [TypeError] of pdf-lib's argument
    check. *)
Definition load_undefined : JS.Error :=
  JS.TypeError "`pdf` must be of type `string` or `Uint8Array` or `ArrayBuffer`, but was actually of type `undefined`".

Section SignPdf.

Variable lib : PdfLib.

(** Lines 87-91: the body of the loop.  There is no [else]: a type that is
    neither ['image'] nor ['text'] does nothing, and writes nothing.
    [signedPdfBytes] is [None] when it is [undefined]: the signing functions
    then throw at [PDFDocument.load], inside their own [try]. *)
Definition sign_one (signature : Sig.t) (signedPdfBytes : option Buffer)
  : M (option Buffer) :=
  if String.eqb (Sig.type signature) "image" then
    match signedPdfBytes with
    | Some pdfBytes =>
        let* signed :=
          signPdfWithImage lib pdfBytes (Sig.data signature)
            (Sig.x signature) (Sig.y signature) (Sig.pageNumber signature) in
        ret (Some signed)
    | None =>
        console (error_in "signPdfWithImage" load_undefined) ;;
        throw load_undefined
    end
  else if String.eqb (Sig.type signature) "text" then
    match signedPdfBytes with
    | Some pdfBytes =>
        let* signed :=
          signPdfWithText lib pdfBytes (Sig.data signature)
            (Sig.x signature) (Sig.y signature) (Sig.pageNumber signature)
            (Sig.font signature) (Sig.fontSize signature)
            (Sig.color signature) in
        ret (Some signed)
    | None =>
        console (error_in "signPdfWithText" load_undefined) ;;
        throw load_undefined
    end
  else ret signedPdfBytes.

(** Lines 86-92: [for (const signature of signatureQueue)]. *)
Fixpoint sign_queue (queue : list Sig.t) (signedPdfBytes : option Buffer)
  : M (option Buffer) :=
  match queue with
  | [] => ret signedPdfBytes
  | signature :: rest =>
      let* signedPdfBytes := sign_one signature signedPdfBytes in
      sign_queue rest signedPdfBytes
  end.

(** Lines 58-106, from the object that line 67 pushes.  [file] is
    [req.file.buffer]; [signature] is the pushed object: its [x] and [y]
    are [parseFloat], its [pageNumber] and [fontSize] are [parseInt], of the
    fields of the form.  The parsing itself (lines 70-74) is not part of the
    definition, and [Sig.t] has no [NaN]: the handler is modelled for forms
    whose fields [x], [y] and [pageNumber] are numerals, and a pushed
    [fontSize] is [Some] number when the field [fontSize] is a numeral.
    With that field absent the code pushes [NaN], which is neither
    [Some] number nor [None] ([undefined]); the statements about text
    signatures ask for [Some].  The handler returns the state it leaves and
    what it sends. *)
Definition sign_pdf (server : Server) (file : option Buffer)
    (signature : Sig.t) : Server * (list event * Reply) :=
  match file with
  | None =>
      (server, ([], reply (json_msg 400 "No PDF file provided for signing")))
  | Some buffer =>
      (* 67-81: push, and keep the file of the first signature *)
      let queue := signatureQueue server ++ [signature] in
      let pdfBytes :=
        if (length queue =? 1)%nat then Some buffer
        else signatureQueue_pdfBytes server in
      match sign_queue queue pdfBytes with
      | (l, Ok (Some signedPdfBytes)) =>
          (* 95-100 *)
          (fresh_queue, (l, reply (send_pdf signedPdfBytes)))
      | (l, Ok None) =>
          (* 95, then Buffer.from(undefined) throws on line 100 *)
          (fresh_queue,
           (l ++ [error_text ("Error signing PDF: "
                              +:+ JS.message Buffer_from_undefined)],
            send_text 500 "Server Error during PDF signing"))
      | (l, Throw err) =>
          (* 102-105: the queue keeps what was pushed *)
          (mkServer queue pdfBytes,
           (l ++ [error_text ("Error signing PDF: " +:+ JS.message err)],
            send_text 500 "Server Error during PDF signing"))
      end
  end.

End SignPdf.

(** ** The model [Document] (models/Document.js) *)

(** [s.trim()], the setter that [trim: true] puts on [fileName]: the white
    space of [JS.isWhiteSpace], the no-break space included, is taken off
    both ends. *)
Fixpoint trimEnd (s : string) : string :=
  match s with
  | EmptyString => EmptyString
  | String c s' =>
      match trimEnd s' with
      | EmptyString => if JS.isWhiteSpace c then EmptyString
                       else String c EmptyString
      | t => String c t
      end
  end.

Definition trim (s : string) : string := trimEnd (JS.trimStart s).

Module Document.

(** An element of [signatures] (lines 26-51 of the schema). *)
Record AppliedSignature := mkApplied {
  type : string;
  data : string;
  pageNumber : Z;
  x : option Q;
  y : option Q;
  font : option string;
  fontSize : option Q;
  color : option string;
  appliedAt : nat
}.

(** A document of the collection.  A date is a number of milliseconds;
    [None] is [null]. *)
Record t := mk {
  _id : string;
  fileName : string;
  originalFilePath : string;
  signedFilePath : option string;
  uploadedAt : nat;
  signedAt : option nat;
  signatures : list AppliedSignature
}.

(** [new Document({ fileName, originalFilePath })] at the time [now], with
    the identifier [id] that the constructor draws: the setter trims
    [fileName], the other paths take their defaults. *)
Definition new (id : string) (now : nat) (fileName originalFilePath : string)
  : t :=
  {| _id := id;
     fileName := trim fileName;
     originalFilePath := originalFilePath;
     signedFilePath := None;
     uploadedAt := now;
     signedAt := None;
     signatures := [] |}.

(** [required: true] on a string: the empty string does not pass. *)
Definition required (s : string) : bool := negb (String.eqb s "").

(** [enum: ['image', 'text']]. *)
Definition enum_type (s : string) : bool :=
  String.eqb s "image" || String.eqb s "text".

Definition valid_signature (s : AppliedSignature) : bool :=
  required (type s) && enum_type (type s) && required (data s).

(** The validation that [save] runs first. *)
Definition valid (doc : t) : bool :=
  required (fileName doc) && required (originalFilePath doc)
  && forallb valid_signature (signatures doc).

End Document.

(** The disk under [uploads] and the collection of documents. *)
Record World := mkWorld {
  files : gmap string Buffer;
  documents : list Document.t
}.

(** The file of a multipart upload. *)
Record Upload := mkUpload {
  originalname : string;
  buffer : Buffer
}.

(** What the handler of the upload cannot see into: the path that
    [path.join(__dirname, '../uploads', name)] builds, whether [fs.writeFile]
    fails at a path (the disk is then taken to be unchanged), whether the
    database refuses a valid document, and the error that a failed validation
    raises. *)
Record Env := mkEnv {
  path_join_uploads : string -> string;
  writeFile_error : string -> option JS.Error;
  insert_error : Document.t -> option JS.Error;
  ValidationError : Document.t -> JS.Error
}.

Section UploadPdf.

Variable env : Env.

(** [fs.writeFile(path, data)]. *)
Definition writeFile (path : string) (data : Buffer) (world : World)
  : result World :=
  match writeFile_error env path with
  | Some err => Throw err
  | None =>
      Ok {| files := <[path := data]> (files world);
            documents := documents world |}
  end.

(** [newDocument.save()]: validation, then the insertion. *)
Definition Document_save (doc : Document.t) (world : World) : result World :=
  if Document.valid doc then
    match insert_error env doc with
    | Some err => Throw err
    | None =>
        Ok {| files := files world;
              documents := documents world ++ [doc] |}
    end
  else Throw (ValidationError env doc).

(** Lines 22-53.  [id] is the [_id] that [new Document] draws and [now] the
    value of [Date.now] then.  The queue is replaced on line 29, before
    anything is stored. *)
Definition upload_pdf (now : nat) (id : string) (server : Server)
    (world : World) (file : option Upload)
  : Server * World * (list event * Reply) :=
  match file with
  | None => (server, world, ([], reply (json_msg 400 "No PDF file uploaded")))
  | Some file =>
      let tempFilePath := path_join_uploads env (originalname file) in
      match writeFile tempFilePath (buffer file) world with
      | Throw err =>
          (fresh_queue, world,
           ([error_text (JS.message err)], send_text 500 "Server Error"))
      | Ok written =>
          let newDocument :=
            Document.new id now (originalname file) tempFilePath in
          match Document_save newDocument written with
          | Throw err =>
              (fresh_queue, written,
               ([error_text (JS.message err)], send_text 500 "Server Error"))
          | Ok saved =>
              (fresh_queue, saved,
               ([], json_uploaded "PDF uploaded successfully"
                      (originalname file) id))
          end
      end
  end.

End UploadPdf.

(** ** The three handlers on one state *)

(** A request to the router. *)
Inductive Request : Type :=
| POST_upload_pdf (now : nat) (id : string) (file : option Upload)
| POST_sign_pdf (file : option Buffer) (signature : Sig.t)
| POST_apply_signatures (file : option Buffer) (signatures : option string).

Section Router.

Variable lib : PdfLib.
Variable env : Env.
Variable JSON_parse : string -> result Parsed.

(** One request, served to its end before the next one starts. *)
Definition serve (state : Server * World) (request : Request)
  : Server * World * (list event * Reply) :=
  let '(server, world) := state in
  match request with
  | POST_upload_pdf now id file => upload_pdf env now id server world file
  | POST_sign_pdf file signature =>
      let '(server', out) := sign_pdf lib server file signature in
      (server', world, out)
  | POST_apply_signatures file signatures =>
      let '(l, res) := apply_signatures_route lib JSON_parse file signatures in
      (server, world, (l, reply res))
  end.

(** A sequence of requests: the state it leaves and the replies, in order. *)
Fixpoint serve_all (state : Server * World) (requests : list Request)
  : Server * World * list Reply :=
  match requests with
  | [] => (state, [])
  | request :: rest =>
      let '(state', (_, r)) := serve state request in
      let '(final, replies) := serve_all state' rest in
      (final, r :: replies)
  end.

End Router.

(* ===================================================================== *)
(** * A sample library *)
(* ===================================================================== *)

(** A small library on which the definitions run.  A document is stored as
    one byte per page, the byte counting the marks on the page; every page is
    612 x 792.  An image is any non-empty payload; its size is read off the
    length of the payload. *)
Module Sample.

Definition byte_of_nat (n : nat) : Byte.byte :=
  default Byte.x00 (Byte.of_nat (n mod 256)).

Definition earlier_mark : DrawOp := drawImage (mkImage 0 0) 0 0 0 0.

Definition load (bytes : Buffer) : result PDFDocument :=
  match bytes with
  | [] => Throw (JS.newError "Failed to parse PDF document")
  | _ =>
      Ok {| getPages :=
              map (fun b => mkPage 612 792
                              (replicate (Byte.to_nat b) earlier_mark)) bytes;
            doc_fonts := [];
            doc_images := [] |}
  end.

Definition save (pdfDoc : PDFDocument) : Buffer :=
  map (fun page => byte_of_nat (length (page_ops page))) (getPages pdfDoc).

Definition image_of (kind : string) (bytes : Buffer) : result PDFImage :=
  match bytes with
  | [] => Throw (JS.newError ("Input is not a " +:+ kind +:+ " image"))
  | _ => Ok (mkImage (inject_Z (Z.of_nat (10 * length bytes)))
                     (inject_Z (Z.of_nat (5 * length bytes))))
  end.

(** Base64, as lenient as Node: stops at [=], skips foreign characters. *)
Definition sextet (c : ascii) : option N :=
  let n := N_of_ascii c in
  if (65 <=? n)%N && (n <=? 90)%N then Some (n - 65)%N
  else if (97 <=? n)%N && (n <=? 122)%N then Some (n - 71)%N
  else if (48 <=? n)%N && (n <=? 57)%N then Some (n + 4)%N
  else if (n =? 43)%N then Some 62%N
  else if (n =? 47)%N then Some 63%N
  else None.

Fixpoint sextets (s : string) : list N :=
  match s with
  | EmptyString => []
  | String c s' =>
      if Ascii.eqb c "=" then []
      else match sextet c with
           | Some v => v :: sextets s'
           | None => sextets s'
           end
  end.

Definition byte_of_N (n : N) : Byte.byte :=
  default Byte.x00 (Byte.of_N (n mod 256)).

Fixpoint bytes_of_sextets (l : list N) : Buffer :=
  match l with
  | a :: b :: c :: d :: rest =>
      let n := (a * 262144 + b * 4096 + c * 64 + d)%N in
      byte_of_N (n / 65536) :: byte_of_N (n / 256) :: byte_of_N n
      :: bytes_of_sextets rest
  | [a; b; c] =>
      let n := (a * 1024 + b * 16 + c / 4)%N in
      [byte_of_N (n / 256); byte_of_N n]
  | [a; b] => [byte_of_N (a * 4 + b / 16)]
  | _ => []
  end.

Definition base64 (s : string) : Buffer := bytes_of_sextets (sextets s).

Definition range_message (valueName : string) (value : number) : string :=
  "`" +:+ valueName +:+ "` must be at least 0 and at most 1".

(** Every standard font embeds. *)
Definition lib : PdfLib :=
  {| PDFDocument_load := load;
     PDFDocument_save := save;
     PngEmbedder_for := image_of "PNG";
     JpegEmbedder_for := image_of "JPEG";
     StandardFontEmbedder_for := fun f => Ok (mkFont f);
     encodeText := fun _ _ => Ok tt;
     base64_decode := base64;
     assertRange_message := range_message |}.


(** The PNG decoder as pdf-lib has it: it looks for the eight bytes that
    open a PNG file first, and throws a string, not an [Error], when they
    are not there. *)
Definition is_png (bytes : Buffer) : bool :=
  match bytes with
  | Byte.x89 :: Byte.x50 :: Byte.x4e :: Byte.x47
    :: Byte.x0d :: Byte.x0a :: Byte.x1a :: Byte.x0a :: _ => true
  | _ => false
  end.

Definition png_of (bytes : Buffer) : result PDFImage :=
  if is_png bytes then image_of "PNG" bytes
  else Throw (JS.not_an_Error "The input is not a PNG file!").

Definition lib_png : PdfLib :=
  {| PDFDocument_load := load;
     PDFDocument_save := save;
     PngEmbedder_for := png_of;
     JpegEmbedder_for := image_of "JPEG";
     StandardFontEmbedder_for := fun f => Ok (mkFont f);
     encodeText := fun _ _ => Ok tt;
     base64_decode := base64;
     assertRange_message := range_message |}.

(** A blank document of one page. *)
Definition blank : Buffer := [Byte.x00].

Definition jane : Sig.t :=
  Sig.mk "text" "Jane Doe" 100 700 1 (Some "Helvetica") (Some 24%Q)
    (Some "#000000").

Definition stamp : Sig.t :=
  Sig.mk "image" "data:image/png;base64,iVBORw0KGgo=" 50 50 1 None None None.

Definition off_page : Sig.t :=
  Sig.mk "text" "Jane Doe" 100 700 5 (Some "Helvetica") (Some 24%Q)
    (Some "#000000").

Definition unknown : Sig.t :=
  Sig.mk "initials" "JD" 10 10 1 None None None.

(** A PNG data URL whose payload is three zero bytes: not a PNG file. *)
Definition not_a_png : Sig.t :=
  Sig.mk "image" "data:image/png;base64,AAAA" 50 50 1 None None None.

End Sample.

(* ===================================================================== *)
(** * Vocabulary of the statements *)
(* ===================================================================== *)

(** The events of the advisory check of the coordinates. *)
Definition coordinate_events (x y : Q) (page : PDFPage) : list event :=
  if outside_page x y (getWidth page) (getHeight page)
  then [warn_coordinates x y (getWidth page) (getHeight page)]
  else [].

(** Whether a string has a comma: [url.split(',')[1]] is [undefined]
    exactly when [url] has none (lemma [split_second]). *)
Fixpoint has_comma (s : string) : bool :=
  match s with
  | EmptyString => false
  | String c s' => Ascii.eqb c "," || has_comma s'
  end.




(** The hexadecimal digits and their values. *)
Definition hex_table : list (ascii * Z) :=
  [("0", 0); ("1", 1); ("2", 2); ("3", 3); ("4", 4); ("5", 5); ("6", 6);
   ("7", 7); ("8", 8); ("9", 9);
   ("a", 10); ("b", 11); ("c", 12); ("d", 13); ("e", 14); ("f", 15);
   ("A", 10); ("B", 11); ("C", 12); ("D", 13); ("E", 14); ("F", 15)]%char%Z.

(** A string of six characters. *)
Definition six (c1 c2 c3 c4 c5 c6 : ascii) : string :=
  String c1 (String c2 (String c3 (String c4 (String c5 (String c6
    EmptyString))))).

(** One request, as a step on the bytes: the bytes it returns, or the error
    it throws. *)
Definition step (lib : PdfLib) (request : Sig.t) (pdfBytes : Buffer)
  : result Buffer :=
  snd (apply_one lib request pdfBytes).

(** The pipeline in the words of the specification: a fold over the
    requests, from left to right, in which the bytes returned for a request
    are the bytes given to the next one, and which stops at the first
    error. *)
Definition sequential_fold (lib : PdfLib) (requests : list Sig.t)
    (pdfBytes : Buffer) : result Buffer :=
  fold_left
    (fun acc request =>
       match acc with
       | Ok bytes => step lib request bytes
       | Throw e => Throw e
       end)
    requests (Ok pdfBytes).

(** A type that is neither ['image'] nor ['text']. *)
Definition unknown_type (request : Sig.t) : Prop :=
  Sig.type request <> "image" /\ Sig.type request <> "text".

(** A library that loads nothing. *)
Definition unreadable : PdfLib :=
  {| PDFDocument_load := fun _ => Throw (JS.newError "Failed to parse PDF document");
     PDFDocument_save := Sample.save;
     PngEmbedder_for := Sample.image_of "PNG";
     JpegEmbedder_for := Sample.image_of "JPEG";
     StandardFontEmbedder_for := fun f => Ok (mkFont f);
     encodeText := fun _ _ => Ok tt;
     base64_decode := Sample.base64;
     assertRange_message := Sample.range_message |}.

(** An event that is not the [console.error] of the [catch] of a signing
    function. *)
Definition not_error_in (ev : event) : Prop :=
  match ev with
  | error_in _ _ => False
  | _ => True
  end.

(** The outcome of the loop from index [i]: the bytes, or the error of the
    inner [catch] for the first request that throws. *)
Fixpoint loop_result (lib : PdfLib) (i : nat) (requests : list Sig.t)
    (pdfBytes : Buffer) : result Buffer :=
  match requests with
  | [] => Ok pdfBytes
  | request :: rest =>
      match step lib request pdfBytes with
      | Ok bytes => loop_result lib (S i) rest bytes
      | Throw e => Throw (FailedToApply (i + 1) e)
      end
  end.

(** A type that the loop knows. *)
Definition known_type (request : Sig.t) : bool :=
  String.eqb (Sig.type request) "image" || String.eqb (Sig.type request) "text".

(** A queue that cannot be served any more: it has its bytes, and signing
    them with the queued signatures throws. *)
Definition poisoned (lib : PdfLib) (server : Server) : Prop :=
  exists pdfBytes e,
    signatureQueue_pdfBytes server = Some pdfBytes
    /\ snd (sign_queue lib (signatureQueue server) (Some pdfBytes)) = Throw e.

(** The states between two requests. *)
Definition settled (lib : PdfLib) (server : Server) : Prop :=
  server = fresh_queue \/ poisoned lib server.

(** The request [POST /api/sign-pdf] with a file. *)
Definition sign_request (upload : Buffer * Sig.t) : Request :=
  POST_sign_pdf (Some (fst upload)) (snd upload).

(** The answer of [/sign-pdf] to every failure. *)
Definition signing_failed : Reply :=
  send_text 500 "Server Error during PDF signing".

(** A document whose original file is on the disk, and on which nothing was
    ever recorded. *)
Definition kept (world : World) (doc : Document.t) : Prop :=
  is_Some (files world !! Document.originalFilePath doc)
  /\ Document.valid doc = true
  /\ Document.signatures doc = []
  /\ Document.signedFilePath doc = None
  /\ Document.signedAt doc = None.

Definition world_ok (world : World) : Prop :=
  Forall (kept world) (documents world).

(** A sample environment: every file can be written, under
    [/srv/backend/uploads], and the database takes every valid document. *)
Module SampleServer.

Definition env : Env :=
  {| path_join_uploads := fun name => "/srv/backend/uploads/" +:+ name;
     writeFile_error := fun _ => None;
     insert_error := fun _ => None;
     ValidationError := fun _ =>
       JS.mkError "ValidationError" "Document validation failed" |}.

(** The JSON text of the string [ab]: the two letters between double
    quotes. *)
Definition quoted_ab : string :=
  String (ascii_of_nat 34) ("ab" +:+ String (ascii_of_nat 34) EmptyString).

(** A parser that knows five texts. *)
Definition parse (text : string) : result Parsed :=
  if String.eqb text "[]" then Ok (array_of [])
  else if String.eqb text "{}" then Ok without_length
  else if String.eqb text "0" then Ok without_length
  else if String.eqb text "null" then Ok parsed_null
  else if String.eqb text quoted_ab then Ok (string_of_length 2)
  else Throw (JS.mkError "SyntaxError" "Unexpected token in JSON").

Definition empty_world : World := mkWorld ∅ [].

Definition contract : Upload := mkUpload "contract.pdf" [Byte.x00].

Definition contract_again : Upload :=
  mkUpload "contract.pdf" [Byte.x00; Byte.x00].

Definition blank_name : Upload := mkUpload "   " [Byte.x00].

(** A name made of a no-break space (U+00A0) and a space. *)
Definition nbsp_name : Upload :=
  mkUpload (String (ascii_of_nat 160) " ") [Byte.x00].

End SampleServer.

(** The file that a request brings, if any. *)
Definition has_file (request : Request) : bool :=
  match request with
  | POST_upload_pdf _ _ (Some _) | POST_sign_pdf (Some _) _
  | POST_apply_signatures (Some _) _ => true
  | _ => false
  end.

(* ===================================================================== *)
(** * Properties *)
(* ===================================================================== *)

(** ** Steps of the monad *)

Lemma bind_Ok {A B} (l : list event) (a : A) (k : A -> M B) :
  bind (l, Ok a) k = (l ++ fst (k a), snd (k a)).
Proof. unfold bind. destruct (k a); reflexivity. Qed.

Lemma bind_Throw {A B} (l : list event) (e : JS.Error) (k : A -> M B) :
  bind (l, Throw e) k = (l, Throw e).
Proof. reflexivity. Qed.

Lemma try_catch_Ok {A} (l : list event) (a : A) (h : JS.Error -> M A) :
  try_catch (l, Ok a) h = (l, Ok a).
Proof. reflexivity. Qed.

Lemma try_catch_Throw {A} (l : list event) (e : JS.Error) (h : JS.Error -> M A) :
  try_catch (l, Throw e) h = (l ++ fst (h e), snd (h e)).
Proof. unfold try_catch. destruct (h e); reflexivity. Qed.

(** The [catch] of the two signing functions: log, then throw again. *)
Lemma rethrow_Throw {A} (fn : string) (l : list event) (e : JS.Error) :
  try_catch (A := A) (l, Throw e)
    (fun error => console (error_in fn error) ;; throw error)
  = (l ++ [error_in fn e], Throw e).
Proof. reflexivity. Qed.

(** ** Locating the page *)

Arguments outside_page : simpl never.
Arguments out_of_bounds : simpl never.

Lemma out_of_bounds_true (pageNumber : Z) (pages : list PDFPage) :
  out_of_bounds pageNumber pages = true <->
  (pageNumber < 1 \/ pageNumber > Z.of_nat (length pages))%Z.
Proof.
  unfold out_of_bounds. rewrite orb_true_iff, Z.ltb_lt, Z.gtb_gt. lia.
Qed.

Lemma out_of_bounds_false (pageNumber : Z) (pages : list PDFPage) :
  out_of_bounds pageNumber pages = false <->
  (1 <= pageNumber <= Z.of_nat (length pages))%Z.
Proof.
  destruct (out_of_bounds pageNumber pages) eqn:E.
  - apply out_of_bounds_true in E. split; [discriminate | lia].
  - split; [intros _ | reflexivity].
    destruct (Z_lt_le_dec pageNumber 1) as [H | H].
    + assert (T : out_of_bounds pageNumber pages = true)
        by (apply out_of_bounds_true; lia).
      congruence.
    + destruct (Z_le_gt_dec pageNumber (Z.of_nat (length pages))) as [H' | H'].
      * lia.
      * assert (T : out_of_bounds pageNumber pages = true)
          by (apply out_of_bounds_true; lia).
        congruence.
Qed.


Lemma locate_page_out_of_bounds lib pdfBytes pdfDoc x y pageNumber :
  PDFDocument_load lib pdfBytes = Ok pdfDoc ->
  (pageNumber < 1 \/ pageNumber > Z.of_nat (length (getPages pdfDoc)))%Z ->
  locate_page lib pdfBytes x y pageNumber
  = ([], Throw (PageOutOfBounds pageNumber (length (getPages pdfDoc)))).
Proof.
  intros Hload Hout. apply out_of_bounds_true in Hout.
  unfold locate_page. rewrite Hload. unfold lift. rewrite bind_Ok.
  rewrite Hout. reflexivity.
Qed.

Lemma locate_page_found lib pdfBytes pdfDoc x y pageNumber page :
  PDFDocument_load lib pdfBytes = Ok pdfDoc ->
  (1 <= pageNumber <= Z.of_nat (length (getPages pdfDoc)))%Z ->
  getPages pdfDoc !! Z.to_nat (pageNumber - 1) = Some page ->
  locate_page lib pdfBytes x y pageNumber
  = (coordinate_events x y page, Ok (pdfDoc, Z.to_nat (pageNumber - 1))).
Proof.
  intros Hload Hin Hpage. apply out_of_bounds_false in Hin.
  unfold locate_page, page_at, coordinate_events.
  rewrite Hload. unfold lift. rewrite bind_Ok. rewrite Hin, Hpage. simpl.
  destruct (outside_page x y (getWidth page) (getHeight page)); reflexivity.
Qed.

(** C2. For a document that loads and a page number below 1 or above the
    number of pages, [signPdfWithImage] and [signPdfWithText] both throw the
    error whose message is
    "Page number <pageNumber> is out of bounds. PDF has <pageCount> pages.":
    it names the requested number and the actual count.  Nothing else
    happens but the [console.error] of the function's own [catch]. *)
Theorem sign_page_out_of_bounds lib pdfBytes pdfDoc pageNumber :
  PDFDocument_load lib pdfBytes = Ok pdfDoc ->
  (pageNumber < 1 \/ pageNumber > Z.of_nat (length (getPages pdfDoc)))%Z ->
  let pageCount := length (getPages pdfDoc) in
  let E := JS.newError ("Page number " +:+ JS.String_of_Z pageNumber
                        +:+ " is out of bounds. PDF has "
                        +:+ JS.String_of_nat pageCount +:+ " pages.") in
  (forall imageDataUrl x y,
      signPdfWithImage lib pdfBytes imageDataUrl x y pageNumber
      = ([error_in "signPdfWithImage" E], Throw E)) /\
  (forall text x y fontName fontSize colorHex,
      signPdfWithText lib pdfBytes text x y pageNumber fontName fontSize
        colorHex
      = ([error_in "signPdfWithText" E], Throw E)).
Proof.
  intros Hload Hout pageCount E.
  split; intros.
  - unfold signPdfWithImage, signPdfWithImage_try.
    rewrite (locate_page_out_of_bounds _ _ _ _ _ _ Hload Hout).
    rewrite bind_Throw. apply rethrow_Throw.
  - unfold signPdfWithText, signPdfWithText_try.
    rewrite (locate_page_out_of_bounds _ _ _ _ _ _ Hload Hout).
    rewrite bind_Throw. apply rethrow_Throw.
Qed.

Lemma sign_page_out_of_bounds_witness :
  signPdfWithImage Sample.lib Sample.blank "data:image/png;base64,iVBORw0KGgo="
    50 50 0
  = ([error_in "signPdfWithImage"
        (JS.newError "Page number 0 is out of bounds. PDF has 1 pages.")],
     Throw (JS.newError "Page number 0 is out of bounds. PDF has 1 pages."))
  /\
  signPdfWithText Sample.lib Sample.blank "Jane Doe" 100 700 2
    (Some "Helvetica") (Some 24%Q) (Some "#000000")
  = ([error_in "signPdfWithText"
        (JS.newError "Page number 2 is out of bounds. PDF has 1 pages.")],
     Throw (JS.newError "Page number 2 is out of bounds. PDF has 1 pages.")).
Proof.
  split.
  - refine (proj1 (sign_page_out_of_bounds Sample.lib Sample.blank _ 0%Z
                     eq_refl _) _ _ _).
    simpl; lia.
  - refine (proj2 (sign_page_out_of_bounds Sample.lib Sample.blank _ 2%Z
                     eq_refl _) _ _ _ _ _ _).
    simpl; lia.
Defined.

(** ** The image path *)

(** Embedding an image writes nothing on the console. *)
Lemma embedImage_silent lib pdfDoc imageDataUrl :
  fst (embedImage lib pdfDoc imageDataUrl) = [].
Proof.
  unfold embedImage, Buffer_from, embedPng, embedJpg.
  destruct (JS.split "," imageDataUrl !! 1%nat); [| reflexivity].
  unfold ret. rewrite bind_Ok. simpl.
  destruct (JS.startsWith imageDataUrl "data:image/png").
  - destruct (PngEmbedder_for lib _); reflexivity.
  - destruct (JS.startsWith imageDataUrl "data:image/jpeg"); [| reflexivity].
    destruct (JpegEmbedder_for lib _); reflexivity.
Qed.

(** An image that embeds is registered in the document; the pages are as
    they were. *)
Lemma embedImage_registers lib pdfDoc imageDataUrl image pdfDoc' :
  snd (embedImage lib pdfDoc imageDataUrl) = Ok (image, pdfDoc') ->
  pdfDoc' = register_image pdfDoc image.
Proof.
  unfold embedImage, Buffer_from, embedPng, embedJpg.
  destruct (JS.split "," imageDataUrl !! 1%nat); [| discriminate].
  unfold ret. rewrite bind_Ok. simpl.
  destruct (JS.startsWith imageDataUrl "data:image/png").
  - destruct (PngEmbedder_for lib _); simpl; congruence.
  - destruct (JS.startsWith imageDataUrl "data:image/jpeg"); [| discriminate].
    destruct (JpegEmbedder_for lib _); simpl; congruence.
Qed.

(** A font that is resolved is registered in the document; the pages and the
    images are as they were. *)
Lemma resolveFont_registers lib pdfDoc fontName font pdfDoc' :
  snd (resolveFont lib pdfDoc fontName) = Ok (font, pdfDoc') ->
  pdfDoc' = register_font pdfDoc font.
Proof.
  assert (Hembed : forall f l,
             snd (bind (A := unit) (l, Ok tt) (fun _ => embedFont lib pdfDoc f))
             = Ok (font, pdfDoc') -> pdfDoc' = register_font pdfDoc font).
  { intros f l. unfold embedFont.
    destruct (StandardFontEmbedder_for lib f); simpl; congruence. }
  assert (Hcatch : forall (m : M (PDFFont * PDFDocument)),
             (snd m = Ok (font, pdfDoc') -> pdfDoc' = register_font pdfDoc font) ->
             snd (try_catch m
                    (fun e => console (error_embedding_font fontName e) ;;
                              embedFont lib pdfDoc Helvetica))
             = Ok (font, pdfDoc') -> pdfDoc' = register_font pdfDoc font).
  { intros [l [a | e]] Hm; simpl; [exact Hm |].
    unfold embedFont.
    destruct (StandardFontEmbedder_for lib Helvetica); simpl; congruence. }
  unfold resolveFont. apply Hcatch.
  destruct fontName as [name |]; [| discriminate].
  assert (Hone : forall f,
             snd (embedFont lib pdfDoc f) = Ok (font, pdfDoc') ->
             pdfDoc' = register_font pdfDoc font).
  { intros f. unfold embedFont.
    destruct (StandardFontEmbedder_for lib f); simpl; congruence. }
  cbv zeta.
  repeat match goal with
         | |- context [if ?b then _ else _] => destruct b; [apply Hone |]
         end.
  apply (Hembed Helvetica [warn_font_not_found name]).
Qed.

(** The call [signPdfWithImage] when the page is found and the image embeds:
    one [drawImage] at [(x, y)], of the size [image.scale(0.2)]. *)
Lemma signPdfWithImage_drawn lib pdfBytes pdfDoc pageNumber page
      imageDataUrl image pdfDoc' x y :
  PDFDocument_load lib pdfBytes = Ok pdfDoc ->
  (1 <= pageNumber <= Z.of_nat (length (getPages pdfDoc)))%Z ->
  getPages pdfDoc !! Z.to_nat (pageNumber - 1) = Some page ->
  snd (embedImage lib pdfDoc imageDataUrl) = Ok (image, pdfDoc') ->
  signPdfWithImage lib pdfBytes imageDataUrl x y pageNumber
  = (coordinate_events x y page,
     Ok (PDFDocument_save lib
           (draw pdfDoc' (Z.to_nat (pageNumber - 1))
              (drawImage image x y (image_width image * 0.2)
                 (image_height image * 0.2))))).
Proof.
  intros Hload Hin Hpage Himage.
  unfold signPdfWithImage, signPdfWithImage_try.
  rewrite (locate_page_found _ _ _ _ _ _ _ Hload Hin Hpage).
  rewrite bind_Ok.
  pose proof (embedImage_silent lib pdfDoc imageDataUrl) as Hsilent.
  destruct (embedImage lib pdfDoc imageDataUrl) as [l r].
  simpl in Hsilent, Himage. subst l r.
  simpl. rewrite app_nil_r. reflexivity.
Qed.

(** The same call when embedding the image throws [e]. *)
Lemma signPdfWithImage_embed_throws lib pdfBytes pdfDoc pageNumber page
      imageDataUrl e x y :
  PDFDocument_load lib pdfBytes = Ok pdfDoc ->
  (1 <= pageNumber <= Z.of_nat (length (getPages pdfDoc)))%Z ->
  getPages pdfDoc !! Z.to_nat (pageNumber - 1) = Some page ->
  snd (embedImage lib pdfDoc imageDataUrl) = Throw e ->
  signPdfWithImage lib pdfBytes imageDataUrl x y pageNumber
  = (coordinate_events x y page ++ [error_in "signPdfWithImage" e], Throw e).
Proof.
  intros Hload Hin Hpage Himage.
  unfold signPdfWithImage, signPdfWithImage_try.
  rewrite (locate_page_found _ _ _ _ _ _ _ Hload Hin Hpage).
  rewrite bind_Ok.
  pose proof (embedImage_silent lib pdfDoc imageDataUrl) as Hsilent.
  destruct (embedImage lib pdfDoc imageDataUrl) as [l r].
  simpl in Hsilent, Himage. subst l r.
  simpl. rewrite app_nil_r. reflexivity.
Qed.

Lemma split_nonempty (sep : ascii) (s : string) : JS.split sep s <> [].
Proof.
  destruct s as [| c s]; simpl; [discriminate |].
  destruct (Ascii.eqb c sep); [discriminate |].
  destruct (JS.split sep s); discriminate.
Qed.

Lemma split_second (s : string) :
  JS.split "," s !! 1%nat = None <-> has_comma s = false.
Proof.
  induction s as [| c s IH]; simpl; [tauto |].
  destruct (Ascii.eqb c ",") eqn:E; simpl.
  - pose proof (split_nonempty "," s) as Hne.
    destruct (JS.split "," s); [congruence |].
    simpl. split; discriminate.
  - destruct (JS.split "," s) as [| h t] eqn:Es.
    + destruct (split_nonempty "," s Es).
    + simpl in *. exact IH.
Qed.

Lemma embedImage_no_comma lib pdfDoc imageDataUrl :
  has_comma imageDataUrl = false ->
  embedImage lib pdfDoc imageDataUrl = ([], Throw Buffer_from_undefined).
Proof.
  intros H. apply split_second in H.
  unfold embedImage. rewrite H. reflexivity.
Qed.

(** With a comma, and a prefix that is neither of the two: the error of
    line 44. *)
Lemma embedImage_unsupported lib pdfDoc imageDataUrl :
  has_comma imageDataUrl = true ->
  JS.startsWith imageDataUrl "data:image/png" = false ->
  JS.startsWith imageDataUrl "data:image/jpeg" = false ->
  embedImage lib pdfDoc imageDataUrl = ([], Throw UnsupportedImageFormat).
Proof.
  intros Hc Hpng Hjpeg.
  unfold embedImage.
  destruct (JS.split "," imageDataUrl !! 1%nat) as [payload |] eqn:E.
  - unfold Buffer_from, ret. rewrite bind_Ok. rewrite Hpng, Hjpeg. reflexivity.
  - apply split_second in E. congruence.
Qed.

Lemma signPdfWithImage_unsupported lib pdfBytes pdfDoc pageNumber page
      imageDataUrl x y :
  PDFDocument_load lib pdfBytes = Ok pdfDoc ->
  (1 <= pageNumber <= Z.of_nat (length (getPages pdfDoc)))%Z ->
  getPages pdfDoc !! Z.to_nat (pageNumber - 1) = Some page ->
  has_comma imageDataUrl = true ->
  JS.startsWith imageDataUrl "data:image/png" = false ->
  JS.startsWith imageDataUrl "data:image/jpeg" = false ->
  signPdfWithImage lib pdfBytes imageDataUrl x y pageNumber
  = (coordinate_events x y page
       ++ [error_in "signPdfWithImage" UnsupportedImageFormat],
     Throw UnsupportedImageFormat).
Proof.
  intros Hload Hin Hpage Hc Hpng Hjpeg.
  apply (signPdfWithImage_embed_throws _ _ _ _ _ _ _ _ _ Hload Hin Hpage).
  rewrite embedImage_unsupported by assumption. reflexivity.
Qed.

(** C5, the case that the code misses.  For a document that loads, a page
    within the bounds and a data URL without a comma, [signPdfWithImage]
    throws the [TypeError] of [Buffer.from(undefined, 'base64')] (line 37),
    before the prefix is looked at and whatever the prefix is; that error is
    not the "Unsupported image format" error of line 44, which a URL with a
    comma and another prefix gets ([signPdfWithImage_unsupported]). *)
Theorem signPdfWithImage_no_comma lib pdfBytes pdfDoc pageNumber page
      imageDataUrl x y :
  PDFDocument_load lib pdfBytes = Ok pdfDoc ->
  (1 <= pageNumber <= Z.of_nat (length (getPages pdfDoc)))%Z ->
  getPages pdfDoc !! Z.to_nat (pageNumber - 1) = Some page ->
  has_comma imageDataUrl = false ->
  signPdfWithImage lib pdfBytes imageDataUrl x y pageNumber
  = (coordinate_events x y page
       ++ [error_in "signPdfWithImage" Buffer_from_undefined],
     Throw Buffer_from_undefined)
  /\ Buffer_from_undefined <> UnsupportedImageFormat.
Proof.
  intros Hload Hin Hpage Hc. split; [| discriminate].
  apply (signPdfWithImage_embed_throws _ _ _ _ _ _ _ _ _ Hload Hin Hpage).
  rewrite embedImage_no_comma by assumption. reflexivity.
Qed.

Lemma signPdfWithImage_no_comma_witness :
  signPdfWithImage Sample.lib Sample.blank "data:image/gif" 50 50 1
  = ([error_in "signPdfWithImage" Buffer_from_undefined],
     Throw Buffer_from_undefined)
  /\ Buffer_from_undefined <> UnsupportedImageFormat.
Proof.
  refine (signPdfWithImage_no_comma Sample.lib Sample.blank _ 1%Z _
            "data:image/gif" 50 50 eq_refl _ eq_refl eq_refl).
  simpl; lia.
Defined.

(** Drawing adds the operation at the end of the content of the page, and
    leaves the other pages as they are. *)
Lemma draw_lookup (pdfDoc : PDFDocument) (i : nat) (op : DrawOp)
      (page : PDFPage) :
  getPages pdfDoc !! i = Some page ->
  getPages (draw pdfDoc i op) !! i = Some (add_op op page).
Proof.
  intros H. unfold draw; simpl.
  rewrite list_lookup_alter_eq. rewrite H. reflexivity.
Qed.

Lemma draw_lookup_ne (pdfDoc : PDFDocument) (i j : nat) (op : DrawOp) :
  i <> j -> getPages (draw pdfDoc i op) !! j = getPages pdfDoc !! j.
Proof.
  intros H. unfold draw; simpl. apply list_lookup_alter_ne. exact H.
Qed.

(** C9. When the document loads, the page is within the bounds and the image
    is embedded, [signPdfWithImage] returns the document saved after one
    [drawImage] of that image whose width and height are the image's own
    width and height times 0.2: that operation is the last one of the page.
    The factor is the literal of line 47: it is the same for every [x], [y],
    [pageNumber] and data URL. *)
Theorem signPdfWithImage_scale lib pdfBytes pdfDoc pageNumber page
      imageDataUrl image pdfDoc' x y :
  PDFDocument_load lib pdfBytes = Ok pdfDoc ->
  (1 <= pageNumber <= Z.of_nat (length (getPages pdfDoc)))%Z ->
  getPages pdfDoc !! Z.to_nat (pageNumber - 1) = Some page ->
  snd (embedImage lib pdfDoc imageDataUrl) = Ok (image, pdfDoc') ->
  let i := Z.to_nat (pageNumber - 1) in
  let op := drawImage image x y (image_width image * (2 # 10))
              (image_height image * (2 # 10)) in
  snd (signPdfWithImage lib pdfBytes imageDataUrl x y pageNumber)
  = Ok (PDFDocument_save lib (draw pdfDoc' i op))
  /\ getPages (draw pdfDoc' i op) !! i
     = Some (mkPage (getWidth page) (getHeight page) (page_ops page ++ [op])).
Proof.
  intros Hload Hin Hpage Himage i op. split.
  - rewrite (signPdfWithImage_drawn _ _ _ _ _ _ _ _ x y Hload Hin Hpage
               Himage).
    reflexivity.
  - apply embedImage_registers in Himage. subst pdfDoc'.
    apply (draw_lookup (register_image pdfDoc image) i op page Hpage).
Qed.

Lemma signPdfWithImage_scale_witness :
  let image := mkImage (inject_Z 80) (inject_Z 40) in
  snd (signPdfWithImage Sample.lib Sample.blank
         "data:image/png;base64,iVBORw0KGgo=" 50 50 1)
  = Ok (Sample.save
          (draw (mkDoc [mkPage 612 792 []] [] [image]) 0
             (drawImage image 50 50 (inject_Z 80 * (2 # 10))
                (inject_Z 40 * (2 # 10))))).
Proof.
  refine (proj1 (signPdfWithImage_scale Sample.lib Sample.blank _ 1%Z _
                   "data:image/png;base64,iVBORw0KGgo=" _ _ 50 50
                   eq_refl _ eq_refl eq_refl)).
  simpl; lia.
Defined.

(** ** The text path *)

Lemma assertRange_silent lib value valueName :
  fst (assertRange lib value valueName) = [].
Proof.
  unfold assertRange. destruct value as [| q]; [reflexivity |].
  destruct (Qle_bool 0 q && Qle_bool q 1); reflexivity.
Qed.

Lemma assertRange_in_range lib (q : Q) valueName :
  (0 <= q)%Q -> (q <= 1)%Q ->
  assertRange lib (Num q) valueName = ([], Ok q).
Proof.
  intros H0 H1. unfold assertRange.
  apply Qle_bool_iff in H0, H1. rewrite H0, H1. reflexivity.
Qed.

(** Converting the colour writes nothing on the console. *)
Lemma hexToRgb_silent lib colorHex : fst (hexToRgb lib colorHex) = [].
Proof.
  unfold hexToRgb. destruct colorHex as [hex |]; [| reflexivity].
  unfold rgb.
  repeat match goal with
         | |- context [assertRange lib ?v ?n] =>
             let H := fresh "H" in
             pose proof (assertRange_silent lib v n) as H;
             destruct (assertRange lib v n) as [? [? | ?]];
             simpl in H; subst; try reflexivity; rewrite bind_Ok; simpl
         end.
Qed.

(** The call [signPdfWithText] when the page is found, a font is resolved,
    the colour converts and the text can be encoded: one [drawText] at
    [(x, y)]. *)
Lemma signPdfWithText_drawn lib pdfBytes pdfDoc pageNumber page text x y
      fontName fontSize colorHex events font pdfDoc' color :
  PDFDocument_load lib pdfBytes = Ok pdfDoc ->
  (1 <= pageNumber <= Z.of_nat (length (getPages pdfDoc)))%Z ->
  getPages pdfDoc !! Z.to_nat (pageNumber - 1) = Some page ->
  resolveFont lib pdfDoc fontName = (events, Ok (font, pdfDoc')) ->
  snd (hexToRgb lib colorHex) = Ok color ->
  encodeText lib font text = Ok tt ->
  signPdfWithText lib pdfBytes text x y pageNumber fontName fontSize colorHex
  = (coordinate_events x y page ++ events,
     Ok (PDFDocument_save lib
           (draw pdfDoc' (Z.to_nat (pageNumber - 1))
              (drawText text x y font fontSize color)))).
Proof.
  intros Hload Hin Hpage Hfont Hcolor Htext.
  unfold signPdfWithText, signPdfWithText_try.
  rewrite (locate_page_found _ _ _ _ _ _ _ Hload Hin Hpage).
  rewrite bind_Ok. rewrite Hfont. rewrite bind_Ok.
  pose proof (hexToRgb_silent lib colorHex) as Hsilent.
  destruct (hexToRgb lib colorHex) as [l r].
  simpl in Hsilent, Hcolor. subst l r.
  rewrite bind_Ok. unfold page_drawText. rewrite Htext.
  simpl. rewrite !app_nil_r. reflexivity.
Qed.

(** ** Font resolution *)



(** A [fontName] that is [undefined] makes [toLowerCase] throw inside the
    [try]: the [catch] embeds Helvetica. *)
Lemma resolveFont_undefined lib fallback pdfDoc :
  StandardFontEmbedder_for lib Helvetica = Ok fallback ->
  resolveFont lib pdfDoc None
  = ([error_embedding_font None (undefined_property "toLowerCase")],
     Ok (fallback, register_font pdfDoc fallback)).
Proof.
  intros Hfallback. unfold resolveFont, embedFont. simpl.
  rewrite Hfallback. reflexivity.
Qed.



(** ** Colour conversion *)

Lemma hexDigit_table (c : ascii) (d : Z) :
  JS.hexDigit c = Some d -> In (c, d) hex_table.
Proof.
  destruct c as [[] [] [] [] [] [] [] []]; vm_compute; intros H;
    try discriminate H; injection H as <-; tauto.
Qed.

Ltac hex_cases H :=
  apply hexDigit_table in H; simpl in H;
  repeat (destruct H as [H | H]; [injection H as <- <- |]); [.. | destruct H].

Lemma hexDigit_range (c : ascii) (d : Z) :
  JS.hexDigit c = Some d -> (0 <= d <= 15)%Z.
Proof. intros H. hex_cases H; lia. Qed.

(** [parseInt] of two digits, and of one. *)
Lemma parseInt16_pair (c1 c2 : ascii) (d1 d2 : Z) :
  JS.hexDigit c1 = Some d1 -> JS.hexDigit c2 = Some d2 ->
  JS.parseInt16 (String c1 (String c2 EmptyString)) = Some (16 * d1 + d2)%Z.
Proof. intros H1 H2. hex_cases H1; hex_cases H2; reflexivity. Qed.

Lemma parseInt16_single (c : ascii) (d : Z) :
  JS.hexDigit c = Some d ->
  JS.parseInt16 (String c EmptyString) = Some d.
Proof. intros H. hex_cases H; reflexivity. Qed.

(** A channel: [n / 255] for [n] between 0 and 255 passes [rgb]. *)
Lemma channel_in_range (n : Z) :
  (0 <= n <= 255)%Z -> (0 <= n # 255)%Q /\ (n # 255 <= 1)%Q.
Proof. intros H. unfold Qle; simpl. lia. Qed.

Lemma rgb_channels lib (r g b : Z) :
  (0 <= r <= 255)%Z -> (0 <= g <= 255)%Z -> (0 <= b <= 255)%Z ->
  rgb lib (JS.div255 (Some r)) (JS.div255 (Some g)) (JS.div255 (Some b))
  = ([], Ok (mkRGB (r # 255) (g # 255) (b # 255))).
Proof.
  intros Hr Hg Hb.
  apply channel_in_range in Hr, Hg, Hb.
  unfold rgb, JS.div255.
  rewrite !assertRange_in_range by tauto.
  reflexivity.
Qed.

(** C4, as amended.  For six hexadecimal digits after a leading [#],
    [hexToRgb] yields the three channels (pair in base 16) / 255, each within
    [0, 1], and [signPdfWithText] draws the text in that colour.  The [#] is
    not optional: the pairs are always taken at positions 1-2, 3-4 and 5-6,
    so six digits without [#] yield the channels of digits 2-3, of digits
    4-5 and of digit 6 alone. *)
Theorem hexToRgb_needs_hash lib c1 c2 c3 c4 c5 c6 d1 d2 d3 d4 d5 d6 :
  JS.hexDigit c1 = Some d1 -> JS.hexDigit c2 = Some d2 ->
  JS.hexDigit c3 = Some d3 -> JS.hexDigit c4 = Some d4 ->
  JS.hexDigit c5 = Some d5 -> JS.hexDigit c6 = Some d6 ->
  let digits := six c1 c2 c3 c4 c5 c6 in
  let color := mkRGB ((16 * d1 + d2) # 255) ((16 * d3 + d4) # 255)
                     ((16 * d5 + d6) # 255) in
  hexToRgb lib (Some (String "#" digits)) = ([], Ok color)
  /\ ((0 <= red color <= 1) /\ (0 <= green color <= 1)
      /\ (0 <= blue color <= 1))%Q
  /\ hexToRgb lib (Some digits)
     = ([], Ok (mkRGB ((16 * d2 + d3) # 255) ((16 * d4 + d5) # 255)
                      (d6 # 255)))
  /\ (forall pdfBytes pdfDoc pageNumber page text x y fontName fontSize
             events font pdfDoc',
         PDFDocument_load lib pdfBytes = Ok pdfDoc ->
         (1 <= pageNumber <= Z.of_nat (length (getPages pdfDoc)))%Z ->
         getPages pdfDoc !! Z.to_nat (pageNumber - 1) = Some page ->
         resolveFont lib pdfDoc fontName = (events, Ok (font, pdfDoc')) ->
         encodeText lib font text = Ok tt ->
         signPdfWithText lib pdfBytes text x y pageNumber fontName fontSize
           (Some (String "#" digits))
         = (coordinate_events x y page ++ events,
            Ok (PDFDocument_save lib
                  (draw pdfDoc' (Z.to_nat (pageNumber - 1))
                     (drawText text x y font fontSize color))))).
Proof.
  intros H1 H2 H3 H4 H5 H6 digits color.
  pose proof (hexDigit_range _ _ H1). pose proof (hexDigit_range _ _ H2).
  pose proof (hexDigit_range _ _ H3). pose proof (hexDigit_range _ _ H4).
  pose proof (hexDigit_range _ _ H5). pose proof (hexDigit_range _ _ H6).
  assert (Hhash : hexToRgb lib (Some (String "#" digits)) = ([], Ok color)).
  { unfold hexToRgb, digits, six, JS.substring. simpl String.substring.
    rewrite (parseInt16_pair _ _ _ _ H1 H2), (parseInt16_pair _ _ _ _ H3 H4),
      (parseInt16_pair _ _ _ _ H5 H6).
    apply rgb_channels; lia. }
  split; [exact Hhash |]. split; [| split].
  - unfold color; simpl.
    repeat split; apply channel_in_range; lia.
  - unfold hexToRgb, digits, six, JS.substring. simpl String.substring.
    rewrite (parseInt16_pair _ _ _ _ H2 H3), (parseInt16_pair _ _ _ _ H4 H5),
      (parseInt16_single _ _ H6).
    apply rgb_channels; lia.
  - intros pdfBytes pdfDoc pageNumber page text x y fontName fontSize
           events font pdfDoc' Hload Hin Hpage Hfont Htext.
    apply (signPdfWithText_drawn lib pdfBytes pdfDoc pageNumber page text x y
             fontName fontSize _ events font pdfDoc' color);
      try assumption.
    rewrite Hhash. reflexivity.
Qed.

Lemma hexToRgb_needs_hash_witness :
  hexToRgb Sample.lib (Some "#1a2B3c")
  = ([], Ok (mkRGB (26 # 255) (43 # 255) (60 # 255)))
  /\ hexToRgb Sample.lib (Some "1a2B3c")
     = ([], Ok (mkRGB (162 # 255) (179 # 255) (12 # 255))).
Proof.
  pose proof (hexToRgb_needs_hash Sample.lib "1" "a" "2" "B" "3" "c"
                1 10 2 11 3 12 eq_refl eq_refl eq_refl eq_refl eq_refl eq_refl)
    as (Hhash & _ & Hbare & _).
  split; [exact Hhash | exact Hbare].
Defined.

(** C4, as stated, fails: without the [#], "FF0000" is not read as red. *)
Lemma hexToRgb_hash_optional_counterexample :
  hexToRgb Sample.lib (Some "#FF0000")
  = ([], Ok (mkRGB (255 # 255) (0 # 255) (0 # 255)))
  /\ hexToRgb Sample.lib (Some "FF0000")
     = ([], Ok (mkRGB (240 # 255) (0 # 255) (0 # 255)))
  /\ ~ (240 # 255 == 255 # 255)%Q
  /\ hexToRgb Sample.lib (Some "FF0000")
     <> hexToRgb Sample.lib (Some "#FF0000").
Proof.
  split; [reflexivity |]. split; [reflexivity |]. split.
  - unfold Qeq; simpl. lia.
  - vm_compute. discriminate.
Qed.

(** ** Coordinates *)

Lemma lt_true (a b : Q) : JS.lt a b = true <-> (a < b)%Q.
Proof.
  unfold JS.lt. rewrite negb_true_iff.
  destruct (Qle_bool b a) eqn:E.
  - apply Qle_bool_iff in E. split; [discriminate |].
    intros H. destruct (Qlt_not_le _ _ H E).
  - split; [intros _ | reflexivity].
    apply Qnot_le_lt. intros H. apply Qle_bool_iff in H. congruence.
Qed.

Lemma outside_page_true (x y pageWidth pageHeight : Q) :
  outside_page x y pageWidth pageHeight = true <->
  (x < 0 \/ y < 0 \/ pageWidth < x \/ pageHeight < y)%Q.
Proof.
  unfold outside_page, JS.gt.
  rewrite !orb_true_iff, !lt_true. tauto.
Qed.

(** C6. When the document loads and the page is within the bounds,
    coordinates outside the page ([x < 0], [y < 0], [x > width] or
    [y > height]) make neither function throw: they are reported through
    [console.warn] only.  With an image that embeds,
    [signPdfWithImage] writes the one warning and returns the document with
    the image drawn at exactly [(x, y)]; with a font resolved, a colour
    converted and a text that encodes, [signPdfWithText] writes the warning
    first and returns the document with the text drawn at exactly [(x, y)].
    In both, the operation is the last one of the content of the page
    [pageNumber] of the saved document, after what the page held, and
    the other pages are those of the loaded document. *)
Theorem coordinates_are_advisory lib pdfBytes pdfDoc pageNumber page x y :
  PDFDocument_load lib pdfBytes = Ok pdfDoc ->
  (1 <= pageNumber <= Z.of_nat (length (getPages pdfDoc)))%Z ->
  getPages pdfDoc !! Z.to_nat (pageNumber - 1) = Some page ->
  (x < 0 \/ y < 0 \/ getWidth page < x \/ getHeight page < y)%Q ->
  let warning := warn_coordinates x y (getWidth page) (getHeight page) in
  let i := Z.to_nat (pageNumber - 1) in
  level_of warning = console_warn
  /\
  (forall imageDataUrl image pdfDoc',
      snd (embedImage lib pdfDoc imageDataUrl) = Ok (image, pdfDoc') ->
      signPdfWithImage lib pdfBytes imageDataUrl x y pageNumber
      = ([warning],
         Ok (PDFDocument_save lib
               (draw pdfDoc' i
                  (drawImage image x y (image_width image * 0.2)
                     (image_height image * 0.2)))))
      /\ getPages
           (draw pdfDoc' i
              (drawImage image x y (image_width image * 0.2)
                 (image_height image * 0.2))) !! i
         = Some (mkPage (getWidth page) (getHeight page)
                   (page_ops page
                    ++ [drawImage image x y (image_width image * 0.2)
                          (image_height image * 0.2)]))
      /\ (forall j, j <> i ->
            getPages
              (draw pdfDoc' i
                 (drawImage image x y (image_width image * 0.2)
                    (image_height image * 0.2))) !! j
            = getPages pdfDoc !! j))
  /\
  (forall text fontName fontSize colorHex events font pdfDoc' color,
      resolveFont lib pdfDoc fontName = (events, Ok (font, pdfDoc')) ->
      snd (hexToRgb lib colorHex) = Ok color ->
      encodeText lib font text = Ok tt ->
      signPdfWithText lib pdfBytes text x y pageNumber fontName fontSize
        colorHex
      = (warning :: events,
         Ok (PDFDocument_save lib
               (draw pdfDoc' i (drawText text x y font fontSize color))))
      /\ getPages (draw pdfDoc' i (drawText text x y font fontSize color))
         !! i
         = Some (mkPage (getWidth page) (getHeight page)
                   (page_ops page
                    ++ [drawText text x y font fontSize color]))
      /\ (forall j, j <> i ->
            getPages (draw pdfDoc' i (drawText text x y font fontSize color))
            !! j
            = getPages pdfDoc !! j)).
Proof.
  intros Hload Hin Hpage Hout warning i.
  apply outside_page_true in Hout.
  assert (Hevents : coordinate_events x y page = [warning])
    by (unfold coordinate_events; rewrite Hout; reflexivity).
  split; [reflexivity |]. split.
  - intros imageDataUrl image pdfDoc' Himage. split; [| split].
    + rewrite (signPdfWithImage_drawn _ _ _ _ _ _ _ _ x y Hload Hin Hpage
                 Himage).
      rewrite Hevents. reflexivity.
    + apply embedImage_registers in Himage. subst pdfDoc'.
      apply (draw_lookup (register_image pdfDoc image) i _ page Hpage).
    + intros j Hj. apply embedImage_registers in Himage. subst pdfDoc'.
      apply (draw_lookup_ne (register_image pdfDoc image) i j _).
      congruence.
  - intros text fontName fontSize colorHex events font pdfDoc' color
           Hfont Hcolor Htext.
    assert (Hreg : pdfDoc' = register_font pdfDoc font)
      by (apply (resolveFont_registers lib pdfDoc fontName);
          rewrite Hfont; reflexivity).
    split; [| split].
    + rewrite (signPdfWithText_drawn _ _ _ _ _ text x y _ fontSize _ _ _ _ _
                 Hload Hin Hpage Hfont Hcolor Htext).
      rewrite Hevents. reflexivity.
    + subst pdfDoc'.
      apply (draw_lookup (register_font pdfDoc font) i _ page Hpage).
    + intros j Hj. subst pdfDoc'.
      apply (draw_lookup_ne (register_font pdfDoc font) i j _).
      congruence.
Qed.

Lemma coordinates_are_advisory_witness :
  let image := mkImage (inject_Z 80) (inject_Z 40) in
  let page := mkPage 612 792 [] in
  signPdfWithImage Sample.lib Sample.blank "data:image/png;base64,iVBORw0KGgo="
    700 (-5) 1
  = ([warn_coordinates 700 (-5) 612 792],
     Ok (Sample.save
           (draw (mkDoc [page] [] [image]) 0
              (drawImage image 700 (-5) (inject_Z 80 * 0.2)
                 (inject_Z 40 * 0.2)))))
  /\
  signPdfWithText Sample.lib Sample.blank "Jane Doe" 700 (-5) 1
    (Some "Helvetica") (Some 24%Q) (Some "#000000")
  = ([warn_coordinates 700 (-5) 612 792],
     Ok (Sample.save
           (draw (mkDoc [page] [mkFont Helvetica] []) 0
              (drawText "Jane Doe" 700 (-5) (mkFont Helvetica) (Some 24%Q)
                 (mkRGB (0 # 255) (0 # 255) (0 # 255)))))).
Proof.
  assert (Hout : (700 < 0 \/ -5 < 0 \/ 612 < 700 \/ 792 < -5)%Q)
    by (right; left; reflexivity).
  assert (Hin : (1 <= 1 <= Z.of_nat 1)%Z) by (simpl; lia).
  pose proof (coordinates_are_advisory Sample.lib Sample.blank _ 1%Z _
                700 (-5) eq_refl Hin eq_refl Hout) as (_ & Himage & Htext).
  split.
  - exact (proj1 (Himage "data:image/png;base64,iVBORw0KGgo=" _ _ eq_refl)).
  - exact (proj1 (Htext "Jane Doe" (Some "Helvetica") (Some 24%Q)
                    (Some "#000000") [] _ _ _ eq_refl eq_refl eq_refl)).
Defined.

(** ** The batch *)

Lemma fold_left_Throw lib (requests : list Sig.t) (e : JS.Error) :
  fold_left
    (fun acc request =>
       match acc with
       | Ok bytes => step lib request bytes
       | Throw e => Throw e
       end)
    requests (Throw e) = Throw e.
Proof. induction requests as [| r rest IH]; simpl; auto. Qed.

Lemma sequential_fold_cons lib request rest pdfBytes :
  sequential_fold lib (request :: rest) pdfBytes
  = match step lib request pdfBytes with
    | Ok bytes => sequential_fold lib rest bytes
    | Throw e => Throw e
    end.
Proof.
  unfold sequential_fold; simpl.
  destruct (step lib request pdfBytes); [reflexivity | apply fold_left_Throw].
Qed.

(** One turn of the loop. *)
Lemma apply_loop_cons_Ok lib i signature rest pdfBytes bytes :
  step lib signature pdfBytes = Ok bytes ->
  apply_loop lib i (signature :: rest) pdfBytes
  = (fst (apply_one lib signature pdfBytes)
       ++ fst (apply_loop lib (S i) rest bytes),
     snd (apply_loop lib (S i) rest bytes)).
Proof.
  unfold step. intros H. simpl.
  destruct (apply_one lib signature pdfBytes) as [l r]. simpl in H. subst r.
  rewrite try_catch_Ok, bind_Ok. reflexivity.
Qed.

Lemma apply_loop_cons_Throw lib i signature rest pdfBytes e :
  step lib signature pdfBytes = Throw e ->
  apply_loop lib i (signature :: rest) pdfBytes
  = (fst (apply_one lib signature pdfBytes)
       ++ [error_applying_signature (i + 1) e],
     Throw (FailedToApply (i + 1) e)).
Proof.
  unfold step. intros H. simpl.
  destruct (apply_one lib signature pdfBytes) as [l r]. simpl in H. subst r.
  rewrite try_catch_Throw. reflexivity.
Qed.

Lemma apply_loop_succeeds lib requests :
  forall i pdfBytes out,
    sequential_fold lib requests pdfBytes = Ok out ->
    snd (apply_loop lib i requests pdfBytes) = Ok out.
Proof.
  induction requests as [| r rest IH]; intros i pdfBytes out H.
  - exact H.
  - rewrite sequential_fold_cons in H.
    destruct (step lib r pdfBytes) as [bytes | e] eqn:E; [| discriminate].
    rewrite (apply_loop_cons_Ok _ _ _ _ _ _ E). simpl. apply IH, H.
Qed.

Lemma apply_loop_fails lib pre :
  forall i pdfBytes request post mid e,
    sequential_fold lib pre pdfBytes = Ok mid ->
    step lib request mid = Throw e ->
    snd (apply_loop lib i (pre ++ request :: post) pdfBytes)
    = Throw (FailedToApply (i + length pre + 1) e).
Proof.
  induction pre as [| r rest IH]; intros i pdfBytes request post mid e Hpre Hstep.
  - injection Hpre as <-.
    rewrite app_nil_l, (apply_loop_cons_Throw _ _ _ _ _ _ Hstep). simpl.
    do 2 f_equal. lia.
  - rewrite sequential_fold_cons in Hpre.
    destruct (step lib r pdfBytes) as [bytes | e'] eqn:E; [| discriminate].
    rewrite <- app_comm_cons, (apply_loop_cons_Ok _ _ _ _ _ _ E). simpl snd.
    rewrite (IH (S i) bytes request post mid e Hpre Hstep).
    do 2 f_equal. simpl. lia.
Qed.

(** Line 159: what the failing request threw is logged, as it is, under its
    position. *)
Lemma apply_loop_logs lib pre :
  forall i pdfBytes request post mid e,
    sequential_fold lib pre pdfBytes = Ok mid ->
    step lib request mid = Throw e ->
    In (error_applying_signature (i + length pre + 1) e)
       (fst (apply_loop lib i (pre ++ request :: post) pdfBytes)).
Proof.
  induction pre as [| r rest IH];
    intros i pdfBytes request post mid e Hpre Hstep.
  - injection Hpre as <-.
    rewrite app_nil_l, (apply_loop_cons_Throw _ _ _ _ _ _ Hstep). simpl fst.
    apply in_or_app. right.
    replace (i + length (@nil Sig.t) + 1)%nat with (i + 1)%nat
      by (simpl; lia).
    left. reflexivity.
  - rewrite sequential_fold_cons in Hpre.
    destruct (step lib r pdfBytes) as [bytes | e'] eqn:E; [| discriminate].
    rewrite <- app_comm_cons, (apply_loop_cons_Ok _ _ _ _ _ _ E). simpl fst.
    apply in_or_app. right.
    replace (i + length (r :: rest) + 1)%nat
      with (S i + length rest + 1)%nat by (simpl; lia).
    apply (IH (S i) bytes request post mid e Hpre Hstep).
Qed.

(** The fold either goes through, or stops at a first failing request. *)
Lemma sequential_fold_cases lib requests :
  forall pdfBytes,
    (exists out, sequential_fold lib requests pdfBytes = Ok out)
    \/ (exists pre request post mid e,
           requests = pre ++ request :: post
           /\ sequential_fold lib pre pdfBytes = Ok mid
           /\ step lib request mid = Throw e).
Proof.
  induction requests as [| r rest IH]; intros pdfBytes.
  - left. exists pdfBytes. reflexivity.
  - destruct (step lib r pdfBytes) as [bytes | e] eqn:E.
    + destruct (IH bytes) as [[out Hout] | (pre & q & post & mid & e & -> & Hpre & Hq)].
      * left. exists out. rewrite sequential_fold_cons, E. exact Hout.
      * right. exists (r :: pre), q, post, mid, e.
        split; [reflexivity |]. split; [| exact Hq].
        rewrite sequential_fold_cons, E. exact Hpre.
    + right. exists [], r, rest, pdfBytes, e. auto.
Qed.

Lemma applySignatures_nonempty lib pdfBytes signaturesArray :
  signaturesArray <> [] ->
  applySignatures lib pdfBytes signaturesArray
  = catch_all
      (let* pdfBytes := apply_loop lib 0 signaturesArray pdfBytes in
       ret (send_pdf pdfBytes)).
Proof.
  intros H. unfold applySignatures, applySignatures_try.
  destruct signaturesArray; [congruence | reflexivity].
Qed.

(** C1. For a non-empty list of requests, the handler is the sequential
    fold: when every request goes through, it sends the bytes of the fold
    (each request was given the bytes returned for the one before it); when
    the requests [pre] go through and the next one throws [e], it sends no
    bytes but the error 500 whose details are
    "Failed to apply signature <length pre + 1>: " followed by what line 160
    reads as [e.message], and the requests after it are not looked at.  One
    of the two always holds.  For an [Error], [e.message] is its message.
    What is thrown need not be an [Error]: the PNG decoder of pdf-lib throws
    a string, which has no [message], and the details then end in
    "undefined": the position is reported, what went wrong is not, though
    line 159 has just logged it. *)
Theorem applySignatures_sequential lib pdfBytes requests :
  requests <> [] ->
  (forall out,
      sequential_fold lib requests pdfBytes = Ok out ->
      snd (applySignatures lib pdfBytes requests) = send_pdf out)
  /\ (forall pre request post mid e,
         requests = pre ++ request :: post ->
         sequential_fold lib pre pdfBytes = Ok mid ->
         step lib request mid = Throw e ->
         snd (applySignatures lib pdfBytes requests)
         = json_error 500 "Server Error during signature application"
             ("Failed to apply signature "
              +:+ JS.String_of_nat (length pre + 1)
              +:+ ": " +:+ JS.message e)
         /\ In (error_applying_signature (length pre + 1) e)
              (fst (applySignatures lib pdfBytes requests))
         /\ (forall name message,
                e = JS.mkError name message -> JS.message e = message)
         /\ (forall text,
                e = JS.not_an_Error text -> JS.message e = "undefined"))
  /\ ((exists out, sequential_fold lib requests pdfBytes = Ok out)
      \/ (exists pre request post mid e,
             requests = pre ++ request :: post
             /\ sequential_fold lib pre pdfBytes = Ok mid
             /\ step lib request mid = Throw e)).
Proof.
  intros Hne. rewrite (applySignatures_nonempty _ _ _ Hne).
  split; [| split].
  - intros out Hout.
    pose proof (apply_loop_succeeds lib requests 0 pdfBytes out Hout) as H.
    destruct (apply_loop lib 0 requests pdfBytes) as [l r].
    simpl in H. subst r. reflexivity.
  - intros pre request post mid e -> Hpre Hstep.
    pose proof (apply_loop_fails lib pre 0 pdfBytes request post mid e
                  Hpre Hstep) as H.
    pose proof (apply_loop_logs lib pre 0 pdfBytes request post mid e
                  Hpre Hstep) as Hlog.
    destruct (apply_loop lib 0 (pre ++ request :: post) pdfBytes) as [l r].
    simpl in H, Hlog. subst r.
    split; [reflexivity |]. split; [| split].
    + simpl. apply in_or_app. left. exact Hlog.
    + intros name message ->. reflexivity.
    + intros text ->. reflexivity.
  - apply sequential_fold_cases.
Qed.

Lemma applySignatures_sequential_witness :
  snd (applySignatures Sample.lib Sample.blank
         [Sample.jane; Sample.stamp; Sample.unknown])
  = send_pdf [Byte.x02]
  /\
  snd (applySignatures Sample.lib Sample.blank
         [Sample.jane; Sample.off_page; Sample.stamp])
  = json_error 500 "Server Error during signature application"
      "Failed to apply signature 2: Page number 5 is out of bounds. PDF has 1 pages."
  /\
  snd (applySignatures Sample.lib_png Sample.blank [Sample.not_a_png])
  = json_error 500 "Server Error during signature application"
      "Failed to apply signature 1: undefined".
Proof.
  split; [| split].
  - refine (proj1 (applySignatures_sequential Sample.lib Sample.blank
                     [Sample.jane; Sample.stamp; Sample.unknown] _)
              [Byte.x02] eq_refl).
    discriminate.
  - refine (proj1 (proj1 (proj2 (applySignatures_sequential Sample.lib
                                   Sample.blank
                                   [Sample.jane; Sample.off_page; Sample.stamp]
                                   _))
                     [Sample.jane] Sample.off_page [Sample.stamp] [Byte.x01]
                     (JS.newError
                        "Page number 5 is out of bounds. PDF has 1 pages.")
                     eq_refl eq_refl eq_refl)).
    discriminate.
  - refine (proj1 (proj1 (proj2 (applySignatures_sequential Sample.lib_png
                                   Sample.blank [Sample.not_a_png] _))
                     [] Sample.not_a_png [] Sample.blank
                     (JS.not_an_Error "The input is not a PNG file!")
                     eq_refl eq_refl eq_refl)).
    discriminate.
Defined.

(** C7. With an empty list of requests the handler answers 400 with the
    message "No signatures provided"; it does not send the input bytes, nor
    any bytes. *)
Theorem applySignatures_empty lib pdfBytes :
  applySignatures lib pdfBytes []
  = ([error_text "No signatures in array"],
     json_msg 400 "No signatures provided")
  /\ forall body, snd (applySignatures lib pdfBytes []) <> send_pdf body.
Proof. split; [reflexivity | discriminate]. Qed.

Lemma apply_one_unknown lib request pdfBytes :
  unknown_type request ->
  apply_one lib request pdfBytes
  = ([warn_unknown_type (Sig.type request)], Ok pdfBytes).
Proof.
  intros [Himage Htext]. unfold apply_one.
  apply String.eqb_neq in Himage, Htext. rewrite Himage, Htext. reflexivity.
Qed.

(** C8. A request whose type is neither ['image'] nor ['text'] writes one
    warning, leaves the bytes as they are and throws nothing; the loop goes
    on with the next request, at the next index, on the same bytes. *)
Theorem unknown_type_skipped lib i request rest pdfBytes :
  unknown_type request ->
  level_of (warn_unknown_type (Sig.type request)) = console_warn
  /\ apply_one lib request pdfBytes
     = ([warn_unknown_type (Sig.type request)], Ok pdfBytes)
  /\ apply_loop lib i (request :: rest) pdfBytes
     = (warn_unknown_type (Sig.type request)
          :: fst (apply_loop lib (S i) rest pdfBytes),
        snd (apply_loop lib (S i) rest pdfBytes)).
Proof.
  intros Hunknown.
  pose proof (apply_one_unknown lib request pdfBytes Hunknown) as Hone.
  split; [reflexivity |]. split; [exact Hone |].
  rewrite (apply_loop_cons_Ok lib i request rest pdfBytes pdfBytes)
    by (unfold step; rewrite Hone; reflexivity).
  rewrite Hone. reflexivity.
Qed.

Lemma unknown_type_skipped_witness :
  apply_loop Sample.lib 0 [Sample.unknown; Sample.jane] Sample.blank
  = ([warn_unknown_type "initials"], Ok [Byte.x01]).
Proof.
  refine (eq_trans
            (proj2 (proj2 (unknown_type_skipped Sample.lib 0 Sample.unknown
                             [Sample.jane] Sample.blank _)))
            eq_refl).
  split; discriminate.
Defined.

Lemma apply_loop_all_unknown lib requests :
  forall i pdfBytes,
    Forall unknown_type requests ->
    apply_loop lib i requests pdfBytes
    = (map (fun request => warn_unknown_type (Sig.type request)) requests,
       Ok pdfBytes).
Proof.
  induction requests as [| r rest IH]; intros i pdfBytes H.
  - reflexivity.
  - inversion H as [| ? ? Hr Hrest]; subst.
    rewrite (apply_loop_cons_Ok lib i r rest pdfBytes pdfBytes)
      by (unfold step; rewrite apply_one_unknown by exact Hr; reflexivity).
    rewrite apply_one_unknown by exact Hr.
    rewrite (IH (S i) pdfBytes Hrest). reflexivity.
Qed.

(** C10. For a non-empty list in which every type is unknown, the handler
    sends exactly the input bytes, after one warning for each request; this
    holds for every library, also one that cannot load the bytes, so the
    document is neither parsed nor saved.  The empty list is answered with
    the error 400. *)
Theorem applySignatures_all_unknown lib pdfBytes requests :
  requests <> [] ->
  Forall unknown_type requests ->
  applySignatures lib pdfBytes requests
  = (map (fun request => warn_unknown_type (Sig.type request)) requests,
     send_pdf pdfBytes)
  /\ (forall lib',
         applySignatures lib' pdfBytes requests
         = applySignatures lib pdfBytes requests)
  /\ snd (applySignatures lib pdfBytes [])
     = json_msg 400 "No signatures provided".
Proof.
  intros Hne Hall.
  assert (Hany : forall l, applySignatures l pdfBytes requests
                           = (map (fun request =>
                                     warn_unknown_type (Sig.type request))
                                requests,
                              send_pdf pdfBytes)).
  { intros l. rewrite (applySignatures_nonempty _ _ _ Hne).
    rewrite apply_loop_all_unknown by exact Hall.
    unfold ret. rewrite bind_Ok. simpl. rewrite app_nil_r. reflexivity. }
  split; [apply Hany |]. split; [| reflexivity].
  intros lib'. rewrite !Hany. reflexivity.
Qed.

Lemma applySignatures_all_unknown_witness :
  applySignatures unreadable [] [Sample.unknown; Sample.unknown]
  = ([warn_unknown_type "initials"; warn_unknown_type "initials"],
     send_pdf []).
Proof.
  refine (proj1 (applySignatures_all_unknown unreadable []
                   [Sample.unknown; Sample.unknown] _ _)).
  - discriminate.
  - repeat constructor; discriminate.
Defined.

(** ** The handler and its entry *)

(** With a file, and a [signatures] field that parses to an array, the
    handler is [applySignatures] on the bytes of the file and that array. *)
Lemma apply_signatures_route_parsed lib JSON_parse pdfBytes signatures
      signaturesArray :
  signatures <> "" ->
  JSON_parse signatures = Ok (array_of signaturesArray) ->
  apply_signatures_route lib JSON_parse (Some pdfBytes) (Some signatures)
  = applySignatures lib pdfBytes signaturesArray.
Proof.
  intros Hne Hparse. unfold apply_signatures_route, applySignatures, falsy.
  apply String.eqb_neq in Hne. rewrite Hne. simpl. rewrite Hparse.
  unfold lift, bind. simpl apply_parsed.
  destruct (applySignatures_try lib pdfBytes signaturesArray) as [l r].
  reflexivity.
Qed.

(** Without a file, or without a [signatures] field, it answers 400. *)
Lemma apply_signatures_route_no_file lib JSON_parse signatures :
  snd (apply_signatures_route lib JSON_parse None signatures)
  = json_msg 400 "No PDF file provided".
Proof. reflexivity. Qed.

Lemma apply_signatures_route_no_signatures lib JSON_parse pdfBytes signatures :
  falsy signatures = true ->
  snd (apply_signatures_route lib JSON_parse (Some pdfBytes) signatures)
  = json_msg 400 "No signatures provided".
Proof. intros H. unfold apply_signatures_route. rewrite H. reflexivity. Qed.

(* ===================================================================== *)
(** * Further properties of [pdf-signer.js] *)
(* ===================================================================== *)

Lemma bind_snd_Throw {A B} (m : M A) (k : A -> M B) (e : JS.Error) :
  snd m = Throw e -> snd (bind m k) = Throw e.
Proof. destruct m as [l [a | e']]; simpl; congruence. Qed.

Lemma bind_snd_Ok {A B} (m : M A) (k : A -> M B) (a : A) :
  snd m = Ok a -> snd (bind m k) = snd (k a).
Proof.
  destruct m as [l [a' | e]]; simpl; [| discriminate].
  intros [= ->]. destruct (k a); reflexivity.
Qed.

(** The events and the outcome of a [try] whose [catch] logs and throws
    again. *)
Lemma rethrow_cases {A} (fn : string) (m : M A) :
  try_catch m (fun error => console (error_in fn error) ;; throw error)
  = match snd m with
    | Ok a => (fst m, Ok a)
    | Throw e => (fst m ++ [error_in fn e], Throw e)
    end.
Proof. destruct m as [l [a | e]]; reflexivity. Qed.

(** When the page is located: the document loaded, the page number is within
    the bounds, and the only event is the advisory one. *)
Lemma locate_page_inv lib pdfBytes x y pageNumber pdfDoc i :
  snd (locate_page lib pdfBytes x y pageNumber) = Ok (pdfDoc, i) ->
  PDFDocument_load lib pdfBytes = Ok pdfDoc
  /\ (1 <= pageNumber <= Z.of_nat (length (getPages pdfDoc)))%Z
  /\ i = Z.to_nat (pageNumber - 1)
  /\ exists page,
       getPages pdfDoc !! i = Some page
       /\ fst (locate_page lib pdfBytes x y pageNumber)
          = coordinate_events x y page.
Proof.
  unfold locate_page.
  destruct (PDFDocument_load lib pdfBytes) as [doc | e] eqn:Hload;
    [| discriminate].
  unfold lift. rewrite bind_Ok. simpl.
  destruct (out_of_bounds pageNumber (getPages doc)) eqn:Hb; [discriminate |].
  apply out_of_bounds_false in Hb. simpl.
  unfold page_at.
  destruct (getPages doc !! Z.to_nat (pageNumber - 1)) as [page |] eqn:Hpage;
    [| discriminate].
  simpl. unfold coordinate_events.
  destruct (outside_page x y (getWidth page) (getHeight page)) eqn:Ho; simpl;
    intros [= <- <-];
    (split; [reflexivity |]); (split; [exact Hb |]); (split; [reflexivity |]);
    exists page; rewrite Ho; (split; [exact Hpage | reflexivity]).
Qed.

(** When the page is not located, nothing was written. *)
Lemma locate_page_throws_silent lib pdfBytes x y pageNumber e :
  snd (locate_page lib pdfBytes x y pageNumber) = Throw e ->
  fst (locate_page lib pdfBytes x y pageNumber) = [].
Proof.
  unfold locate_page.
  destruct (PDFDocument_load lib pdfBytes) as [doc | e']; [| reflexivity].
  unfold lift. rewrite bind_Ok. simpl.
  destruct (out_of_bounds pageNumber (getPages doc)); [reflexivity |].
  simpl. unfold page_at.
  destruct (getPages doc !! Z.to_nat (pageNumber - 1)) as [page |];
    [| reflexivity].
  simpl. destruct (outside_page x y (getWidth page) (getHeight page));
    discriminate.
Qed.

Lemma locate_page_load_throws lib pdfBytes x y pageNumber e :
  PDFDocument_load lib pdfBytes = Throw e ->
  locate_page lib pdfBytes x y pageNumber = ([], Throw e).
Proof. intros H. unfold locate_page. rewrite H. reflexivity. Qed.

(** X1. When [PDFDocument.load] throws on the bytes, [signPdfWithText]
    throws that very error, whatever its other arguments, after one
    [console.error] of its own [catch], and nothing else is looked at; so
    does [signPdfWithImage] when its [imageDataUrl] is a string, or any
    value but [undefined] and [null].  On [undefined] and on [null] the
    bytes are not looked at at all: whether they load or not, line 15 throws
    its [TypeError] before the [try], and nothing is logged. *)
Theorem sign_load_throws lib pdfBytes e :
  PDFDocument_load lib pdfBytes = Throw e ->
  (forall imageDataUrl x y pageNumber,
      signPdfWithImage_any lib pdfBytes imageDataUrl x y pageNumber
      = match imageDataUrl with
        | arg_undefined => ([], Throw (undefined_property "length"))
        | arg_null => ([], Throw (null_property "length"))
        | arg_string _ | arg_other =>
            ([error_in "signPdfWithImage" e], Throw e)
        end)
  /\ (forall other x y pageNumber,
         signPdfWithImage_any lib other arg_undefined x y pageNumber
         = ([], Throw (undefined_property "length"))
         /\ signPdfWithImage_any lib other arg_null x y pageNumber
            = ([], Throw (null_property "length")))
  /\ (forall text x y pageNumber fontName fontSize colorHex,
         signPdfWithText lib pdfBytes text x y pageNumber fontName fontSize
           colorHex
         = ([error_in "signPdfWithText" e], Throw e)).
Proof.
  intros Hload. split; [| split]; intros.
  - destruct imageDataUrl as [s | | |]; try reflexivity.
    + unfold signPdfWithImage_any, signPdfWithImage, signPdfWithImage_try.
      rewrite (locate_page_load_throws _ _ _ _ _ _ Hload). reflexivity.
    + unfold signPdfWithImage_any.
      rewrite (locate_page_load_throws _ _ _ _ _ _ Hload). reflexivity.
  - split; reflexivity.
  - unfold signPdfWithText, signPdfWithText_try.
    rewrite (locate_page_load_throws _ _ _ _ _ _ Hload). reflexivity.
Qed.

Lemma sign_load_throws_witness :
  signPdfWithImage_any Sample.lib []
    (arg_string "data:image/png;base64,iVBORw0KGgo=") 50 50 1
  = ([error_in "signPdfWithImage"
        (JS.newError "Failed to parse PDF document")],
     Throw (JS.newError "Failed to parse PDF document"))
  /\ signPdfWithImage_any Sample.lib [] arg_undefined 50 50 1
     = ([], Throw (JS.TypeError
                     "Cannot read properties of undefined (reading 'length')")).
Proof.
  split.
  - exact (proj1 (sign_load_throws Sample.lib [] _ eq_refl)
             (arg_string "data:image/png;base64,iVBORw0KGgo=")
             50%Q 50%Q 1%Z).
  - exact (proj1 (sign_load_throws Sample.lib [] _ eq_refl)
             arg_undefined 50%Q 50%Q 1%Z).
Defined.

(** Drawing keeps the number of pages. *)
Lemma draw_length (pdfDoc : PDFDocument) (i : nat) (op : DrawOp) :
  length (getPages (draw pdfDoc i op)) = length (getPages pdfDoc).
Proof. unfold draw; simpl. apply length_alter. Qed.

(** X2. Whenever [signPdfWithImage] returns bytes, the document had loaded,
    the page number was within the bounds, the data URL had a part after its
    first comma and one of the two prefixes, and the decoder accepted the
    payload; the bytes are the saved document, which differs from the loaded
    one by one image added to its resources and one [drawImage] added at the
    end of the target page: same number of pages, same size of the target
    page, every other page and the fonts untouched. *)
Theorem signPdfWithImage_returns lib pdfBytes imageDataUrl x y pageNumber out :
  snd (signPdfWithImage lib pdfBytes imageDataUrl x y pageNumber) = Ok out ->
  exists pdfDoc page payload image,
    let i := Z.to_nat (pageNumber - 1) in
    let op := drawImage image x y (image_width image * 0.2)
                (image_height image * 0.2) in
    let signed := draw (register_image pdfDoc image) i op in
    PDFDocument_load lib pdfBytes = Ok pdfDoc
    /\ (1 <= pageNumber <= Z.of_nat (length (getPages pdfDoc)))%Z
    /\ getPages pdfDoc !! i = Some page
    /\ JS.split "," imageDataUrl !! 1%nat = Some payload
    /\ (JS.startsWith imageDataUrl "data:image/png" = true
        /\ PngEmbedder_for lib (base64_decode lib payload) = Ok image
        \/ JS.startsWith imageDataUrl "data:image/png" = false
           /\ JS.startsWith imageDataUrl "data:image/jpeg" = true
           /\ JpegEmbedder_for lib (base64_decode lib payload) = Ok image)
    /\ out = PDFDocument_save lib signed
    /\ length (getPages signed) = length (getPages pdfDoc)
    /\ getPages signed !! i
       = Some (mkPage (getWidth page) (getHeight page) (page_ops page ++ [op]))
    /\ (forall j, j <> i -> getPages signed !! j = getPages pdfDoc !! j)
    /\ doc_fonts signed = doc_fonts pdfDoc
    /\ doc_images signed = doc_images pdfDoc ++ [image].
Proof.
  unfold signPdfWithImage. rewrite rethrow_cases.
  destruct (snd (signPdfWithImage_try lib pdfBytes imageDataUrl x y pageNumber))
    as [bytes | e] eqn:Htry; [| discriminate].
  simpl. intros [= ->].
  unfold signPdfWithImage_try in Htry.
  destruct (snd (locate_page lib pdfBytes x y pageNumber)) as [[pdfDoc i] | e]
    eqn:Hlocate;
    [| rewrite (bind_snd_Throw _ _ _ Hlocate) in Htry; discriminate].
  rewrite (bind_snd_Ok _ _ _ Hlocate) in Htry.
  destruct (locate_page_inv _ _ _ _ _ _ _ Hlocate)
    as (Hload & Hin & -> & page & Hpage & _).
  destruct (snd (embedImage lib pdfDoc imageDataUrl)) as [[image pdfDoc'] | e]
    eqn:Himage;
    [| rewrite (bind_snd_Throw _ _ _ Himage) in Htry; discriminate].
  rewrite (bind_snd_Ok _ _ _ Himage) in Htry. simpl in Htry.
  injection Htry as <-.
  pose proof (embedImage_registers _ _ _ _ _ Himage) as ->.
  assert (Hpayload : exists payload,
             JS.split "," imageDataUrl !! 1%nat = Some payload
             /\ (JS.startsWith imageDataUrl "data:image/png" = true
                 /\ PngEmbedder_for lib (base64_decode lib payload) = Ok image
                 \/ JS.startsWith imageDataUrl "data:image/png" = false
                    /\ JS.startsWith imageDataUrl "data:image/jpeg" = true
                    /\ JpegEmbedder_for lib (base64_decode lib payload)
                       = Ok image)).
  { revert Himage. unfold embedImage, Buffer_from, embedPng, embedJpg.
    destruct (JS.split "," imageDataUrl !! 1%nat) as [payload |];
      [| discriminate].
    exists payload. split; [reflexivity |]. revert Himage.
    unfold ret. rewrite bind_Ok. simpl.
    destruct (JS.startsWith imageDataUrl "data:image/png").
    - destruct (PngEmbedder_for lib _) as [im | e]; simpl; [| discriminate].
      intros [= <-]. left. split; reflexivity.
    - destruct (JS.startsWith imageDataUrl "data:image/jpeg");
        [| discriminate].
      destruct (JpegEmbedder_for lib _) as [im | e]; simpl; [| discriminate].
      intros [= <-]. right. repeat split; reflexivity. }
  destruct Hpayload as (payload & Hsplit & Hkind).
  exists pdfDoc, page, payload, image. cbv zeta.
  repeat split; try assumption; try lia.

  - apply draw_length.
  - apply (draw_lookup (register_image pdfDoc image) _ _ page Hpage).
  - intros j Hj. apply list_lookup_alter_ne. congruence.
Qed.

Lemma signPdfWithImage_returns_witness :
  exists pdfDoc page payload image,
    PDFDocument_load Sample.lib Sample.blank = Ok pdfDoc
    /\ getPages pdfDoc !! 0%nat = Some page
    /\ payload = "iVBORw0KGgo="
    /\ [Byte.x01] = Sample.save
                      (draw (register_image pdfDoc image) 0
                         (drawImage image 50 50 (image_width image * 0.2)
                            (image_height image * 0.2))).
Proof.
  destruct (signPdfWithImage_returns Sample.lib Sample.blank
              "data:image/png;base64,iVBORw0KGgo=" 50 50 1 [Byte.x01]
              eq_refl)
    as (pdfDoc & page & payload & image & Hload & _ & Hpage & Hsplit & _
        & Hout & _).
  exists pdfDoc, page, payload, image.
  repeat split; try assumption.
  simpl in Hsplit. congruence.
Defined.

(** X3. Whenever [signPdfWithText] returns bytes, the document had loaded,
    the page number was within the bounds, a font was resolved, the colour
    converted and the text could be encoded in that font; the bytes are the
    saved document, which differs from the loaded one by one font added to
    its resources and one [drawText] added at the end of the target page:
    same number of pages, same size of the target page, every other page and
    the images untouched. *)
Theorem signPdfWithText_returns lib pdfBytes text x y pageNumber fontName
      fontSize colorHex out :
  snd (signPdfWithText lib pdfBytes text x y pageNumber fontName fontSize
         colorHex) = Ok out ->
  exists pdfDoc page font color,
    let i := Z.to_nat (pageNumber - 1) in
    let op := drawText text x y font fontSize color in
    let signed := draw (register_font pdfDoc font) i op in
    PDFDocument_load lib pdfBytes = Ok pdfDoc
    /\ (1 <= pageNumber <= Z.of_nat (length (getPages pdfDoc)))%Z
    /\ getPages pdfDoc !! i = Some page
    /\ snd (resolveFont lib pdfDoc fontName)
       = Ok (font, register_font pdfDoc font)
    /\ snd (hexToRgb lib colorHex) = Ok color
    /\ encodeText lib font text = Ok tt
    /\ out = PDFDocument_save lib signed
    /\ length (getPages signed) = length (getPages pdfDoc)
    /\ getPages signed !! i
       = Some (mkPage (getWidth page) (getHeight page) (page_ops page ++ [op]))
    /\ (forall j, j <> i -> getPages signed !! j = getPages pdfDoc !! j)
    /\ doc_fonts signed = doc_fonts pdfDoc ++ [font]
    /\ doc_images signed = doc_images pdfDoc.
Proof.
  unfold signPdfWithText. rewrite rethrow_cases.
  destruct (snd (signPdfWithText_try lib pdfBytes text x y pageNumber fontName
                   fontSize colorHex)) as [bytes | e] eqn:Htry;
    [| discriminate].
  simpl. intros [= ->].
  unfold signPdfWithText_try in Htry.
  destruct (snd (locate_page lib pdfBytes x y pageNumber)) as [[pdfDoc i] | e]
    eqn:Hlocate;
    [| rewrite (bind_snd_Throw _ _ _ Hlocate) in Htry; discriminate].
  rewrite (bind_snd_Ok _ _ _ Hlocate) in Htry.
  destruct (locate_page_inv _ _ _ _ _ _ _ Hlocate)
    as (Hload & Hin & -> & page & Hpage & _).
  destruct (snd (resolveFont lib pdfDoc fontName)) as [[font pdfDoc'] | e]
    eqn:Hfont;
    [| rewrite (bind_snd_Throw _ _ _ Hfont) in Htry; discriminate].
  rewrite (bind_snd_Ok _ _ _ Hfont) in Htry.
  pose proof (resolveFont_registers _ _ _ _ _ Hfont) as ->.
  destruct (snd (hexToRgb lib colorHex)) as [color | e] eqn:Hcolor;
    [| rewrite (bind_snd_Throw _ _ _ Hcolor) in Htry; discriminate].
  rewrite (bind_snd_Ok _ _ _ Hcolor) in Htry.
  unfold page_drawText in Htry.
  destruct (encodeText lib font text) as [[] | e] eqn:Htext;
    [| discriminate].
  simpl in Htry. injection Htry as <-.
  exists pdfDoc, page, font, color. cbv zeta.
  repeat split; try assumption; try lia.
  - apply draw_length.
  - apply (draw_lookup (register_font pdfDoc font) _ _ page Hpage).
  - intros j Hj. apply list_lookup_alter_ne. congruence.
Qed.

Lemma signPdfWithText_returns_witness :
  exists pdfDoc font color,
    PDFDocument_load Sample.lib Sample.blank = Ok pdfDoc
    /\ [Byte.x01]
       = Sample.save
           (draw (register_font pdfDoc font) 0
              (drawText "Jane Doe" 100 700 font (Some 24%Q) color)).
Proof.
  destruct (signPdfWithText_returns Sample.lib Sample.blank "Jane Doe"
              100 700 1 (Some "Helvetica") (Some 24%Q) (Some "#000000")
              [Byte.x01] eq_refl)
    as (pdfDoc & page & font & color & Hload & _ & _ & _ & _ & _ & Hout & _).
  exists pdfDoc, font, color. split; assumption.
Defined.

(** ** The data URL *)

Lemma split_no_comma (s : string) :
  has_comma s = false -> JS.split "," s = [s].
Proof.
  induction s as [| c s IH]; simpl; [reflexivity |].
  destruct (Ascii.eqb c ","); simpl; [discriminate |].
  intros H. rewrite (IH H). reflexivity.
Qed.

Lemma split_app_comma (s t : string) :
  has_comma s = false ->
  JS.split "," (s +:+ String "," t) = s :: JS.split "," t.
Proof.
  induction s as [| c s IH]; simpl; [reflexivity |].
  destruct (Ascii.eqb c ","); simpl; [discriminate |].
  intros H. rewrite (IH H). reflexivity.
Qed.

Lemma append_empty (s : string) : s +:+ EmptyString = s.
Proof.
  induction s as [| c s IH]; [reflexivity |].
  change (String c s +:+ EmptyString) with (String c (s +:+ EmptyString)).
  rewrite IH. reflexivity.
Qed.

(** The part of a data URL between its first comma and its second one, if
    any. *)
Lemma split_data_url (prefix payload rest : string) :
  has_comma prefix = false ->
  has_comma payload = false ->
  rest = EmptyString \/ (exists junk, rest = String "," junk) ->
  JS.split "," (prefix +:+ String "," (payload +:+ rest)) !! 1%nat
  = Some payload.
Proof.
  intros Hprefix Hpayload Hrest.
  rewrite (split_app_comma _ _ Hprefix).
  destruct Hrest as [-> | [junk ->]].
  - rewrite append_empty, (split_no_comma _ Hpayload). reflexivity.
  - rewrite (split_app_comma _ _ Hpayload). reflexivity.
Qed.

(** X4. For a data URL [<prefix>,<payload>], or [<prefix>,<payload>,<junk>],
    whose prefix and payload have no comma, the bytes given to the decoder
    are the base64 decoding of [<payload>] alone (what follows a second comma
    is dropped); the PNG decoder is tried when the URL starts with
    [data:image/png], the JPEG one when it starts with [data:image/jpeg], and
    an error of the decoder is thrown unchanged. *)
Theorem embedImage_data_url lib pdfDoc prefix payload rest :
  has_comma prefix = false ->
  has_comma payload = false ->
  rest = EmptyString \/ (exists junk, rest = String "," junk) ->
  let imageDataUrl := prefix +:+ String "," (payload +:+ rest) in
  let bytes := base64_decode lib payload in
  let embedded (decoded : result PDFImage) :=
    match decoded with
    | Ok image => ([], Ok (image, register_image pdfDoc image))
    | Throw e => ([], Throw e)
    end in
  embedImage lib pdfDoc imageDataUrl
  = if JS.startsWith imageDataUrl "data:image/png"
    then embedded (PngEmbedder_for lib bytes)
    else if JS.startsWith imageDataUrl "data:image/jpeg"
         then embedded (JpegEmbedder_for lib bytes)
         else ([], Throw UnsupportedImageFormat).
Proof.
  intros Hprefix Hpayload Hrest imageDataUrl bytes embedded.
  assert (Hsplit : JS.split "," imageDataUrl !! 1%nat = Some payload)
    by exact (split_data_url prefix payload rest Hprefix Hpayload Hrest).
  unfold embedImage. rewrite Hsplit.
  unfold Buffer_from, ret. rewrite bind_Ok. simpl fst. simpl snd.
  fold bytes. unfold embedPng, embedJpg, embedded.
  destruct (JS.startsWith imageDataUrl "data:image/png").
  - destruct (PngEmbedder_for lib bytes); reflexivity.
  - destruct (JS.startsWith imageDataUrl "data:image/jpeg"); [| reflexivity].
    destruct (JpegEmbedder_for lib bytes); reflexivity.
Qed.

Lemma embedImage_data_url_witness :
  embedImage Sample.lib (mkDoc [] [] [])
    "data:image/jpeg;base64,TWFu,ignored"
  = ([], Ok (mkImage (inject_Z 30) (inject_Z 15),
             mkDoc [] [] [mkImage (inject_Z 30) (inject_Z 15)])).
Proof.
  refine (embedImage_data_url Sample.lib (mkDoc [] [] [])
            "data:image/jpeg;base64" "TWFu" ",ignored" eq_refl eq_refl _).
  right. exists "ignored". reflexivity.
Defined.

(** ** Colours that do not convert *)

Lemma substring_beyond (n m : nat) (s : string) :
  (String.length s <= n)%nat -> String.substring n m s = EmptyString.
Proof.
  revert n. induction s as [| c s IH]; intros n H.
  - destruct n, m; reflexivity.
  - destruct n as [| n]; simpl in *; [lia |]. apply IH. lia.
Qed.

Lemma rgb_blue_NaN lib (r g : number) :
  exists e, snd (rgb lib r g NaN) = Throw e.
Proof.
  unfold rgb.
  destruct (assertRange lib r "red") as [l1 [r' | e1]] eqn:E1; [| eauto].
  rewrite bind_Ok.
  destruct (assertRange lib g "green") as [l2 [g' | e2]] eqn:E2; [| eauto].
  rewrite bind_Ok. simpl. eauto.
Qed.

Lemma hexToRgb_short lib (colorHex : option string) :
  colorHex = None
  \/ (exists hex, colorHex = Some hex /\ (String.length hex <= 5)%nat) ->
  exists e, snd (hexToRgb lib colorHex) = Throw e.
Proof.
  intros [-> | (hex & -> & Hlen)]; [simpl; eauto |].
  unfold hexToRgb, JS.substring at 3.
  rewrite (substring_beyond 5 (7 - 5) hex Hlen).
  change (JS.div255 (JS.parseInt16 EmptyString)) with NaN.
  apply rgb_blue_NaN.
Qed.

(** X5. A [colorHex] that is [undefined], or a string of fewer than six
    characters (the short form [#RGB], say), never converts: [hexToRgb]
    throws, and so does [signPdfWithText], whatever its other arguments. *)
Theorem signPdfWithText_short_colour lib pdfBytes text x y pageNumber
      fontName fontSize colorHex :
  colorHex = None
  \/ (exists hex, colorHex = Some hex /\ (String.length hex <= 5)%nat) ->
  (exists e, snd (hexToRgb lib colorHex) = Throw e)
  /\ exists e,
       snd (signPdfWithText lib pdfBytes text x y pageNumber fontName
              fontSize colorHex) = Throw e.
Proof.
  intros Hshort.
  destruct (hexToRgb_short lib colorHex Hshort) as [e He].
  split; [eauto |].
  unfold signPdfWithText. rewrite rethrow_cases.
  assert (Htry : exists e',
             snd (signPdfWithText_try lib pdfBytes text x y pageNumber
                    fontName fontSize colorHex) = Throw e').
  { unfold signPdfWithText_try.
    destruct (snd (locate_page lib pdfBytes x y pageNumber))
      as [[pdfDoc i] | e1] eqn:Hlocate;
      [| exists e1; apply bind_snd_Throw, Hlocate].
    rewrite (bind_snd_Ok _ _ _ Hlocate).
    destruct (snd (resolveFont lib pdfDoc fontName)) as [[font pdfDoc'] | e2]
      eqn:Hfont;
      [| exists e2; apply bind_snd_Throw, Hfont].
    rewrite (bind_snd_Ok _ _ _ Hfont).
    exists e. apply bind_snd_Throw, He. }
  destruct Htry as [e' ->]. eauto.
Qed.

Lemma signPdfWithText_short_colour_witness :
  exists e,
    snd (signPdfWithText Sample.lib Sample.blank "Jane Doe" 100 700 1
           (Some "Helvetica") (Some 24%Q) (Some "#FFF")) = Throw e.
Proof.
  refine (proj2 (signPdfWithText_short_colour Sample.lib Sample.blank
                   "Jane Doe" 100 700 1 (Some "Helvetica") (Some 24%Q)
                   (Some "#FFF") _)).
  right. exists "#FFF". split; [reflexivity | simpl; lia].
Defined.

(** X6. Of a [colorHex] of seven characters or more, [hexToRgb] reads the
    characters at positions 1 to 6 and nothing else: the first character
    need not be [#], and what follows the seventh (an alpha channel, say) is
    dropped without notice. *)
Theorem hexToRgb_reads_six lib (c0 : ascii) (body tail : string) :
  String.length body = 6%nat ->
  hexToRgb lib (Some (String c0 body +:+ tail))
  = hexToRgb lib (Some (String "#" body)).
Proof.
  intros H.
  do 6 (destruct body as [| ? body]; [discriminate H |]).
  destruct body; [| discriminate H].
  cbv beta iota delta [String.append]. fold String.append.
  unfold hexToRgb, JS.substring. simpl String.substring.
  assert (E : String.substring 0 0 tail = EmptyString)
    by (destruct tail; reflexivity).
  rewrite E. reflexivity.
Qed.

Lemma hexToRgb_reads_six_witness :
  hexToRgb Sample.lib (Some "xFF000080")
  = ([], Ok (mkRGB (255 # 255) (0 # 255) (0 # 255))).
Proof.
  exact (hexToRgb_reads_six Sample.lib "x" "FF0000" "80" eq_refl).
Defined.

(** X7. A text signature without a font ([fontName] is [undefined]) is still
    drawn: [toLowerCase] throws inside the [try] of the font, the [catch]
    logs it and embeds Helvetica, and the text is drawn in that font,
    provided the library embeds Helvetica and the rest of the call goes
    through. *)
Theorem signPdfWithText_without_font lib pdfBytes pdfDoc pageNumber page
      text x y fontSize colorHex color fallback :
  PDFDocument_load lib pdfBytes = Ok pdfDoc ->
  (1 <= pageNumber <= Z.of_nat (length (getPages pdfDoc)))%Z ->
  getPages pdfDoc !! Z.to_nat (pageNumber - 1) = Some page ->
  StandardFontEmbedder_for lib Helvetica = Ok fallback ->
  snd (hexToRgb lib colorHex) = Ok color ->
  encodeText lib fallback text = Ok tt ->
  signPdfWithText lib pdfBytes text x y pageNumber None fontSize colorHex
  = (coordinate_events x y page
       ++ [error_embedding_font None (undefined_property "toLowerCase")],
     Ok (PDFDocument_save lib
           (draw (register_font pdfDoc fallback) (Z.to_nat (pageNumber - 1))
              (drawText text x y fallback fontSize color)))).
Proof.
  intros Hload Hin Hpage Hfallback Hcolor Htext.
  apply (signPdfWithText_drawn lib pdfBytes pdfDoc pageNumber page text x y
           None fontSize colorHex _ fallback _ color Hload Hin Hpage);
    [| exact Hcolor | exact Htext].
  apply resolveFont_undefined, Hfallback.
Qed.

Lemma signPdfWithText_without_font_witness :
  signPdfWithText Sample.lib Sample.blank "Jane Doe" 100 700 1 None None
    (Some "#000000")
  = ([error_embedding_font None (undefined_property "toLowerCase")],
     Ok [Byte.x01]).
Proof.
  refine (signPdfWithText_without_font Sample.lib Sample.blank _ 1%Z _
            "Jane Doe" 100 700 None (Some "#000000") _ _
            eq_refl _ eq_refl eq_refl eq_refl eq_refl).
  simpl; lia.
Defined.

(** ** What the two functions write *)

Lemma bind_fst {A B} (m : M A) (k : A -> M B) :
  fst (bind m k)
  = fst m ++ match snd m with
             | Ok a => fst (k a)
             | Throw _ => []
             end.
Proof.
  destruct m as [l [a | e]]; simpl.
  - destruct (k a); reflexivity.
  - symmetry. apply app_nil_r.
Qed.

Lemma coordinate_events_not_error_in x y page :
  Forall not_error_in (coordinate_events x y page).
Proof.
  unfold coordinate_events.
  destruct (outside_page x y (getWidth page) (getHeight page));
    repeat constructor.
Qed.

Lemma locate_page_not_error_in lib pdfBytes x y pageNumber :
  Forall not_error_in (fst (locate_page lib pdfBytes x y pageNumber)).
Proof.
  destruct (snd (locate_page lib pdfBytes x y pageNumber)) as [[pdfDoc i] | e]
    eqn:H.
  - destruct (locate_page_inv _ _ _ _ _ _ _ H) as (_ & _ & _ & page & _ & ->).
    apply coordinate_events_not_error_in.
  - rewrite (locate_page_throws_silent _ _ _ _ _ _ H). constructor.
Qed.

Lemma resolveFont_not_error_in lib pdfDoc fontName :
  Forall not_error_in (fst (resolveFont lib pdfDoc fontName)).
Proof.
  unfold resolveFont, embedFont.
  destruct fontName as [name |]; cbv zeta;
    repeat match goal with
           | |- context [if ?b then _ else _] => destruct b
           end;
    repeat match goal with
           | |- context [StandardFontEmbedder_for lib ?f] =>
               destruct (StandardFontEmbedder_for lib f)
           end;
    simpl; repeat constructor.
Qed.

(** X8. Inside its [try], each signing function logs the error it throws
    exactly once, as its last event, and logs no such event when it
    returns: its events are some events of other kinds (the advisory
    warning, the events of the font) followed, when it throws [e], by the
    one [console.error] of [e].  This is every run of [signPdfWithText], and
    every run of [signPdfWithImage] but two: when [imageDataUrl] is
    [undefined] or [null], line 15 throws before the [try], and that error
    is the one the function throws without any event. *)
Theorem signing_logs_its_error lib pdfBytes x y pageNumber :
  (forall imageDataUrl,
      let run :=
        signPdfWithImage_any lib pdfBytes imageDataUrl x y pageNumber in
      match imageDataUrl with
      | arg_undefined => run = ([], Throw (undefined_property "length"))
      | arg_null => run = ([], Throw (null_property "length"))
      | arg_string _ | arg_other =>
          exists before,
            Forall not_error_in before
            /\ fst run = before ++ match snd run with
                                   | Ok _ => []
                                   | Throw e => [error_in "signPdfWithImage" e]
                                   end
      end)
  /\ (forall text fontName fontSize colorHex,
         let run := signPdfWithText lib pdfBytes text x y pageNumber fontName
                      fontSize colorHex in
         exists before,
           Forall not_error_in before
           /\ fst run = before ++ match snd run with
                                  | Ok _ => []
                                  | Throw e => [error_in "signPdfWithText" e]
                                  end).
Proof.
  split.
  - intros [imageDataUrl | | |] run; [| reflexivity | reflexivity |].
    + exists (fst (signPdfWithImage_try lib pdfBytes imageDataUrl x y
                     pageNumber)).
      split.
      * unfold signPdfWithImage_try. rewrite bind_fst.
        apply Forall_app. split; [apply locate_page_not_error_in |].
        destruct (snd (locate_page lib pdfBytes x y pageNumber))
          as [[pdfDoc i] | e]; [| constructor].
        rewrite bind_fst, embedImage_silent. simpl.
        destruct (snd (embedImage lib pdfDoc imageDataUrl))
          as [[image d] | e]; constructor.
      * unfold run, signPdfWithImage_any, signPdfWithImage.
        rewrite rethrow_cases.
        destruct (snd (signPdfWithImage_try lib pdfBytes imageDataUrl x y
                         pageNumber));
          simpl; [rewrite app_nil_r |]; reflexivity.
    + exists (fst (locate_page lib pdfBytes x y pageNumber)).
      split; [apply locate_page_not_error_in |].
      unfold run, signPdfWithImage_any. rewrite rethrow_cases.
      destruct (locate_page lib pdfBytes x y pageNumber)
        as [l [[pdfDoc i] | e]]; simpl; rewrite ?app_nil_r; reflexivity.
  - intros text fontName fontSize colorHex run.
    exists (fst (signPdfWithText_try lib pdfBytes text x y pageNumber fontName
                   fontSize colorHex)).
    split.
    + unfold signPdfWithText_try. rewrite bind_fst.
      apply Forall_app. split; [apply locate_page_not_error_in |].
      destruct (snd (locate_page lib pdfBytes x y pageNumber))
        as [[pdfDoc i] | e]; [| constructor].
      rewrite bind_fst.
      apply Forall_app. split; [apply resolveFont_not_error_in |].
      destruct (snd (resolveFont lib pdfDoc fontName)) as [[font d] | e];
        [| constructor].
      rewrite bind_fst, hexToRgb_silent. simpl.
      destruct (snd (hexToRgb lib colorHex)) as [color | e]; [| constructor].
      unfold page_drawText.
      destruct (encodeText lib font text); simpl; constructor.
    + unfold run, signPdfWithText. rewrite rethrow_cases.
      destruct (snd (signPdfWithText_try lib pdfBytes text x y pageNumber
                       fontName fontSize colorHex)); simpl;
        [rewrite app_nil_r |]; reflexivity.
Qed.

(* ===================================================================== *)
(** * Further properties of [POST /api/apply-signatures] *)
(* ===================================================================== *)

Lemma apply_loop_result lib requests :
  forall i pdfBytes,
    snd (apply_loop lib i requests pdfBytes)
    = loop_result lib i requests pdfBytes.
Proof.
  induction requests as [| r rest IH]; intros i pdfBytes; [reflexivity |].
  simpl loop_result.
  destruct (step lib r pdfBytes) as [bytes | e] eqn:E.
  - rewrite (apply_loop_cons_Ok _ _ _ _ _ _ E). apply IH.
  - rewrite (apply_loop_cons_Throw _ _ _ _ _ _ E). reflexivity.
Qed.

Lemma loop_result_app lib l1 :
  forall i l2 pdfBytes,
    loop_result lib i (l1 ++ l2) pdfBytes
    = match loop_result lib i l1 pdfBytes with
      | Ok mid => loop_result lib (i + length l1) l2 mid
      | Throw e => Throw e
      end.
Proof.
  induction l1 as [| r rest IH]; intros i l2 pdfBytes; simpl.
  - rewrite Nat.add_0_r. reflexivity.
  - destruct (step lib r pdfBytes) as [bytes | e]; [| reflexivity].
    rewrite IH. replace (S i + length rest)%nat with (i + S (length rest))%nat
      by lia.
    reflexivity.
Qed.

(** The loop goes through exactly when the fold does, with the same bytes. *)
Lemma loop_result_Ok lib requests :
  forall i pdfBytes out,
    loop_result lib i requests pdfBytes = Ok out
    <-> sequential_fold lib requests pdfBytes = Ok out.
Proof.
  induction requests as [| r rest IH]; intros i pdfBytes out.
  - reflexivity.
  - rewrite sequential_fold_cons. simpl.
    destruct (step lib r pdfBytes) as [bytes | e]; [apply IH |].
    split; discriminate.
Qed.

(** The position in the message does not change the fact of a failure. *)
Lemma loop_result_shift lib requests :
  forall i j pdfBytes out,
    loop_result lib i requests pdfBytes = Ok out ->
    loop_result lib j requests pdfBytes = Ok out.
Proof.
  intros i j pdfBytes out H.
  apply loop_result_Ok. apply (loop_result_Ok lib requests i), H.
Qed.

Lemma server_error_not_pdf (e : JS.Error) (out : Buffer) :
  server_error e <> send_pdf out.
Proof. destruct e; discriminate. Qed.

(** What the handler sends for a non-empty array. *)
Lemma applySignatures_response lib pdfBytes requests :
  requests <> [] ->
  snd (applySignatures lib pdfBytes requests)
  = match loop_result lib 0 requests pdfBytes with
    | Ok out => send_pdf out
    | Throw e => server_error e
    end.
Proof.
  intros Hne. rewrite (applySignatures_nonempty _ _ _ Hne).
  rewrite <- apply_loop_result.
  destruct (apply_loop lib 0 requests pdfBytes) as [l [out | e]]; reflexivity.
Qed.

Lemma applySignatures_sends lib pdfBytes requests out :
  snd (applySignatures lib pdfBytes requests) = send_pdf out
  <-> requests <> [] /\ sequential_fold lib requests pdfBytes = Ok out.
Proof.
  destruct requests as [| r rest].
  - split; [discriminate | intros [H _]; congruence].
  - rewrite applySignatures_response by discriminate.
    rewrite <- (loop_result_Ok lib (r :: rest) 0).
    destruct (loop_result lib 0 (r :: rest) pdfBytes) as [bytes | e].
    + split; [intros [= ->]; split; [discriminate | reflexivity]
             | intros [_ [= ->]]; reflexivity].
    + split; [intros H; destruct (server_error_not_pdf _ _ H)
             | intros [_ H]; discriminate].
Qed.

(** X9. Batches compose.  When a first batch goes through and sends [mid],
    appending a second batch gives what the second batch gives on [mid]: the
    same bytes when it goes through, and, when its request of position [k]
    throws, the same error at position [length first + k].  When the first
    batch fails, what is appended after it changes nothing. *)
Theorem applySignatures_app lib pdfBytes first second :
  first <> [] ->
  second <> [] ->
  (forall mid,
      snd (applySignatures lib pdfBytes first) = send_pdf mid ->
      (forall out,
          snd (applySignatures lib mid second) = send_pdf out
          <-> snd (applySignatures lib pdfBytes (first ++ second))
              = send_pdf out)
      /\ (forall pre request post bytes e,
             second = pre ++ request :: post ->
             sequential_fold lib pre mid = Ok bytes ->
             step lib request bytes = Throw e ->
             snd (applySignatures lib pdfBytes (first ++ second))
             = json_error 500 "Server Error during signature application"
                 (JS.message
                    (FailedToApply (length first + length pre + 1) e))))
  /\ (forall status error details,
         snd (applySignatures lib pdfBytes first)
         = json_error status error details ->
         snd (applySignatures lib pdfBytes (first ++ second))
         = json_error status error details).
Proof.
  intros Hfirst Hsecond.
  assert (Hboth : first ++ second <> [])
    by (destruct first; [congruence | discriminate]).
  rewrite (applySignatures_response _ _ _ Hfirst).
  rewrite (applySignatures_response _ _ _ Hboth).
  rewrite loop_result_app. simpl.
  destruct (loop_result lib 0 first pdfBytes) as [mid' | e1].
  - split; [| discriminate].
    intros mid [= <-]. split.
    + intros out. rewrite (applySignatures_response _ _ _ Hsecond).
      destruct (loop_result lib 0 second mid') as [o | e] eqn:E0.
      * rewrite (loop_result_shift _ _ _ (length first) _ _ E0). reflexivity.
      * destruct (loop_result lib (length first) second mid') as [o | e'] eqn:E1.
        -- rewrite (loop_result_shift _ _ _ 0 _ _ E1) in E0. discriminate.
        -- split; intros H; destruct (server_error_not_pdf _ _ H).
    + intros pre request post bytes e -> Hpre Hstep.
      rewrite loop_result_app.
      apply (loop_result_Ok lib pre (length first)) in Hpre. rewrite Hpre.
      simpl. rewrite Hstep. reflexivity.
  - split; [intros mid H; destruct (server_error_not_pdf _ _ H) |].
    intros status error details H. exact H.
Qed.

Lemma applySignatures_app_witness :
  snd (applySignatures Sample.lib Sample.blank
         ([Sample.jane] ++ [Sample.stamp; Sample.off_page]))
  = json_error 500 "Server Error during signature application"
      "Failed to apply signature 3: Page number 5 is out of bounds. PDF has 1 pages.".
Proof.
  refine (proj2 (proj1 (applySignatures_app Sample.lib Sample.blank
                          [Sample.jane] [Sample.stamp; Sample.off_page] _ _)
                   [Byte.x01] eq_refl)
            [Sample.stamp] Sample.off_page [] [Byte.x02]
            (JS.newError "Page number 5 is out of bounds. PDF has 1 pages.")
            eq_refl eq_refl eq_refl); discriminate.
Defined.

Lemma step_unknown lib request pdfBytes :
  known_type request = false -> step lib request pdfBytes = Ok pdfBytes.
Proof.
  unfold known_type, step, apply_one. intros H.
  apply orb_false_iff in H as [-> ->]. reflexivity.
Qed.

Lemma sequential_fold_filter lib requests :
  forall pdfBytes,
    sequential_fold lib (List.filter known_type requests) pdfBytes
    = sequential_fold lib requests pdfBytes.
Proof.
  induction requests as [| r rest IH]; intros pdfBytes; [reflexivity |].
  simpl. destruct (known_type r) eqn:E.
  - rewrite !sequential_fold_cons.
    destruct (step lib r pdfBytes); [apply IH | reflexivity].
  - rewrite sequential_fold_cons, (step_unknown _ _ _ E). apply IH.
Qed.

(** X10. The requests of unknown type do not count for the bytes: as long as
    one request of a known type remains, a batch sends a PDF exactly when the
    batch without its requests of unknown type does, and the same one. *)
Theorem applySignatures_without_unknown lib pdfBytes requests out :
  List.filter known_type requests <> [] ->
  snd (applySignatures lib pdfBytes requests) = send_pdf out
  <-> snd (applySignatures lib pdfBytes (List.filter known_type requests))
      = send_pdf out.
Proof.
  intros Hne. rewrite !applySignatures_sends, sequential_fold_filter.
  assert (requests <> []) by (intros ->; apply Hne; reflexivity).
  tauto.
Qed.

Lemma applySignatures_without_unknown_witness :
  snd (applySignatures Sample.lib Sample.blank [Sample.jane; Sample.stamp])
  = send_pdf [Byte.x02].
Proof.
  refine (proj1 (applySignatures_without_unknown Sample.lib Sample.blank
                   [Sample.unknown; Sample.jane; Sample.unknown; Sample.stamp]
                   [Byte.x02] _) eq_refl).
  discriminate.
Defined.

Lemma warn_each_events (units : nat) :
  warn_each units = (repeat (warn_unknown_type "undefined") units, Ok tt).
Proof.
  induction units as [| units IH]; [reflexivity |].
  simpl. rewrite IH. reflexivity.
Qed.

(** What the handler does with a value that has no [length], with a string
    and with [null]. *)
Lemma apply_signatures_route_value lib JSON_parse pdfBytes text parsed :
  text <> "" ->
  JSON_parse text = Ok parsed ->
  apply_signatures_route lib JSON_parse (Some pdfBytes) (Some text)
  = catch_all (apply_parsed lib pdfBytes parsed).
Proof.
  intros Hne Hparse. unfold apply_signatures_route, falsy.
  apply String.eqb_neq in Hne. rewrite Hne. simpl default. rewrite Hparse.
  unfold lift, bind.
  destruct (apply_parsed lib pdfBytes parsed) as [l r]. reflexivity.
Qed.

Lemma apply_parsed_string lib pdfBytes units :
  units <> 0%nat ->
  catch_all (apply_parsed lib pdfBytes (string_of_length units))
  = (repeat (warn_unknown_type "undefined") units, send_pdf pdfBytes).
Proof.
  intros Hunits. unfold apply_parsed.
  apply Nat.eqb_neq in Hunits. rewrite Hunits, warn_each_events.
  simpl. rewrite app_nil_r. reflexivity.
Qed.

(** X11. The answers of the handler, by what came with the request and by
    what [JSON.parse] makes of the field [signatures], for the values of
    [Parsed]: an array of signature objects, a string, [null], a value
    without [length].  A PDF is sent exactly when a file came, the field is
    a non-empty text, the text parses, and the value is a non-empty array
    whose requests all go through, in order (the PDF is the result of the
    fold), or a value without [length] (a number, a boolean, an object
    without that key: the guard and the loop are both passed over), or a
    non-empty string; in the last two cases the PDF is the file as it came,
    after no event, or after one warning for each unit of the string.  When
    the text does not parse the answer is the error 500 of the outer [catch]
    for what the parser threw; when it parses to [null], the error 500 with
    the message of the [TypeError] of line 134. *)
Theorem apply_signatures_route_sends lib JSON_parse file signatures :
  (forall out,
      snd (apply_signatures_route lib JSON_parse file signatures)
      = send_pdf out
      <-> exists pdfBytes text parsed,
            file = Some pdfBytes
            /\ signatures = Some text
            /\ text <> EmptyString
            /\ JSON_parse text = Ok parsed
            /\ match parsed with
               | array_of signaturesArray =>
                   signaturesArray <> []
                   /\ sequential_fold lib signaturesArray pdfBytes = Ok out
               | string_of_length units => units <> 0%nat /\ out = pdfBytes
               | parsed_null => False
               | without_length => out = pdfBytes
               end)
  /\ (forall pdfBytes text,
         file = Some pdfBytes ->
         signatures = Some text ->
         text <> EmptyString ->
         (forall e,
             JSON_parse text = Throw e ->
             apply_signatures_route lib JSON_parse file signatures
             = ([error_applying_signatures (JS.message e); error_stack e],
                server_error e))
         /\ (JSON_parse text = Ok without_length ->
             apply_signatures_route lib JSON_parse file signatures
             = ([], send_pdf pdfBytes))
         /\ (forall units,
                JSON_parse text = Ok (string_of_length units) ->
                units <> 0%nat ->
                apply_signatures_route lib JSON_parse file signatures
                = (repeat (warn_unknown_type "undefined") units,
                   send_pdf pdfBytes))
         /\ (JSON_parse text = Ok parsed_null ->
             snd (apply_signatures_route lib JSON_parse file signatures)
             = json_error 500 "Server Error during signature application"
                 "Cannot read properties of null (reading 'length')")).
Proof.
  split.
  - intros out. split.
    + destruct file as [pdfBytes |]; [| discriminate].
      destruct signatures as [text |]; [| discriminate].
      destruct (String.eqb text "") eqn:Htext.
      { unfold apply_signatures_route, falsy. rewrite Htext. discriminate. }
      apply String.eqb_neq in Htext.
      destruct (JSON_parse text) as [parsed | e] eqn:Hparse.
      * rewrite (apply_signatures_route_value _ _ _ _ _ Htext Hparse).
        intros H. exists pdfBytes, text, parsed.
        repeat (split; [first [reflexivity | assumption] |]).
        destruct parsed as [arr | units | |].
        -- apply applySignatures_sends. exact H.
        -- destruct (Nat.eq_dec units 0) as [-> | Hunits]; [discriminate |].
           rewrite (apply_parsed_string _ _ _ Hunits) in H.
           injection H as <-. auto.
        -- discriminate.
        -- injection H as <-. reflexivity.
      * unfold apply_signatures_route, falsy.
        apply String.eqb_neq in Htext. rewrite Htext. simpl default.
        rewrite Hparse. intros H. destruct (server_error_not_pdf _ _ H).
    + intros (pdfBytes & text & parsed & -> & -> & Htext & Hparse & Hsent).
      rewrite (apply_signatures_route_value _ _ _ _ _ Htext Hparse).
      destruct parsed as [arr | units | |].
      * apply applySignatures_sends. exact Hsent.
      * destruct Hsent as [Hunits ->].
        rewrite (apply_parsed_string _ _ _ Hunits). reflexivity.
      * destruct Hsent.
      * rewrite Hsent. reflexivity.
  - intros pdfBytes text -> -> Htext. repeat split.
    + intros e Hparse. unfold apply_signatures_route, falsy.
      apply String.eqb_neq in Htext. rewrite Htext. simpl default.
      rewrite Hparse. reflexivity.
    + intros Hparse.
      rewrite (apply_signatures_route_value _ _ _ _ _ Htext Hparse).
      reflexivity.
    + intros units Hparse Hunits.
      rewrite (apply_signatures_route_value _ _ _ _ _ Htext Hparse).
      apply apply_parsed_string. exact Hunits.
    + intros Hparse.
      rewrite (apply_signatures_route_value _ _ _ _ _ Htext Hparse).
      reflexivity.
Qed.

(* ===================================================================== *)
(** * Properties of the shared queue *)
(* ===================================================================== *)

Lemma sign_queue_app lib q1 :
  forall q2 bytes,
    snd (sign_queue lib (q1 ++ q2) bytes)
    = match snd (sign_queue lib q1 bytes) with
      | Ok bytes' => snd (sign_queue lib q2 bytes')
      | Throw e => Throw e
      end.
Proof.
  induction q1 as [| s rest IH]; intros q2 bytes; [reflexivity |].
  simpl.
  destruct (snd (sign_one lib s bytes)) as [bytes' | e] eqn:E.
  - rewrite !(bind_snd_Ok _ _ _ E). apply IH.
  - rewrite !(bind_snd_Throw _ _ _ E). reflexivity.
Qed.

(** On bytes that are there, one turn of the loop of [/sign-pdf] returns or
    throws as one turn of the loop of [/apply-signatures] does. *)
Lemma sign_one_step lib signature pdfBytes :
  snd (sign_one lib signature (Some pdfBytes))
  = match step lib signature pdfBytes with
    | Ok out => Ok (Some out)
    | Throw e => Throw e
    end.
Proof.
  unfold sign_one, step, apply_one.
  destruct (String.eqb (Sig.type signature) "image").
  - destruct (signPdfWithImage lib pdfBytes _ _ _ _) as [l [o | e]];
      reflexivity.
  - destruct (String.eqb (Sig.type signature) "text"); [| reflexivity].
    destruct (signPdfWithText lib pdfBytes _ _ _ _ _ _ _) as [l [o | e]];
      reflexivity.
Qed.

(** What a request with a file does to a queue that is poisoned. *)
Lemma sign_pdf_poisoned lib server file signature :
  poisoned lib server ->
  let after := sign_pdf lib server (Some file) signature in
  snd (snd after) = signing_failed
  /\ signatureQueue (fst after) = signatureQueue server ++ [signature]
  /\ signatureQueue_pdfBytes (fst after) = signatureQueue_pdfBytes server
  /\ poisoned lib (fst after).
Proof.
  intros (pdfBytes & e & Hbytes & Hthrow). cbv zeta.
  assert (Hne : signatureQueue server <> []).
  { intros Hnil. rewrite Hnil in Hthrow. discriminate. }
  assert (Hlen : (length (signatureQueue server ++ [signature]) =? 1)%nat
                 = false).
  { apply Nat.eqb_neq. rewrite length_app. simpl.
    destruct (signatureQueue server); [congruence | simpl; lia]. }
  assert (Hq : snd (sign_queue lib (signatureQueue server ++ [signature])
                      (Some pdfBytes)) = Throw e)
    by (rewrite sign_queue_app, Hthrow; reflexivity).
  unfold sign_pdf. rewrite Hlen, Hbytes.
  destruct (sign_queue lib (signatureQueue server ++ [signature])
              (Some pdfBytes)) as [l [o | e']] eqn:E;
    simpl in Hq; [discriminate |].
  injection Hq as ->. simpl.
  repeat split; try reflexivity.
  exists pdfBytes, e. simpl. rewrite E. auto.
Qed.

(** What a request with a file does to the fresh queue. *)
Lemma sign_pdf_fresh_cases lib buffer signature :
  let after := sign_pdf lib fresh_queue (Some buffer) signature in
  match step lib signature buffer with
  | Ok out => fst after = fresh_queue /\ snd (snd after) = reply (send_pdf out)
  | Throw e =>
      fst after = mkServer [signature] (Some buffer)
      /\ snd (snd after) = signing_failed
      /\ poisoned lib (fst after)
  end.
Proof.
  cbv zeta. unfold sign_pdf. simpl.
  pose proof (sign_one_step lib signature buffer) as Hone.
  destruct (sign_one lib signature (Some buffer)) as [l r] eqn:E.
  simpl in Hone. subst r.
  destruct (step lib signature buffer) as [out | e] eqn:Hstep; simpl.
  - split; reflexivity.
  - repeat split. exists buffer, e. simpl. rewrite E. auto.
Qed.

Lemma upload_pdf_settled lib env now id server world file :
  settled lib server ->
  settled lib (fst (fst (upload_pdf env now id server world file))).
Proof.
  intros H. unfold upload_pdf.
  destruct file as [upload |]; [| exact H].
  destruct (writeFile env _ _ world); [| left; reflexivity].
  destruct (Document_save env _ _); left; reflexivity.
Qed.

Lemma sign_pdf_settled lib server file signature :
  settled lib server ->
  settled lib (fst (sign_pdf lib server file signature)).
Proof.
  intros H. destruct file as [buffer |]; [| exact H].
  destruct H as [-> | H].
  - pose proof (sign_pdf_fresh_cases lib buffer signature) as Hc.
    cbv zeta in Hc.
    destruct (step lib signature buffer).
    + left. apply Hc.
    + right. apply Hc.
  - right. apply (sign_pdf_poisoned lib server buffer signature H).
Qed.

Lemma serve_sign_pdf lib env JSON_parse server world file signature :
  serve lib env JSON_parse (server, world) (POST_sign_pdf file signature)
  = (fst (sign_pdf lib server file signature), world,
     snd (sign_pdf lib server file signature)).
Proof.
  simpl. destruct (sign_pdf lib server file signature); reflexivity.
Qed.

Lemma serve_upload_pdf lib env JSON_parse server world now id file :
  serve lib env JSON_parse (server, world) (POST_upload_pdf now id file)
  = upload_pdf env now id server world file.
Proof. reflexivity. Qed.

Lemma serve_settled lib env JSON_parse server world request :
  settled lib server ->
  settled lib (fst (fst (serve lib env JSON_parse (server, world) request))).
Proof.
  intros H. destruct request as [now id file | file signature | file signatures];
    simpl.
  - apply upload_pdf_settled, H.
  - pose proof (sign_pdf_settled lib server file signature H) as H'.
    destruct (sign_pdf lib server file signature) as [s o]. exact H'.
  - destruct (apply_signatures_route lib JSON_parse file signatures).
    exact H.
Qed.

Lemma serve_all_cons lib env JSON_parse state request rest :
  serve_all lib env JSON_parse state (request :: rest)
  = let after := serve lib env JSON_parse state request in
    let final := serve_all lib env JSON_parse (fst after) rest in
    (fst final, snd (snd after) :: snd final).
Proof.
  simpl.
  destruct (serve lib env JSON_parse state request) as [state' [l r]].
  simpl.
  destruct (serve_all lib env JSON_parse state' rest) as [final replies].
  reflexivity.
Qed.

Lemma serve_all_app lib env JSON_parse requests :
  forall state later,
    serve_all lib env JSON_parse state (requests ++ later)
    = let mid := serve_all lib env JSON_parse state requests in
      let final := serve_all lib env JSON_parse (fst mid) later in
      (fst final, snd mid ++ snd final).
Proof.
  induction requests as [| r rest IH]; intros state later.
  - simpl. destruct (serve_all lib env JSON_parse state later); reflexivity.
  - rewrite <- app_comm_cons, !serve_all_cons. cbv zeta.
    rewrite IH. reflexivity.
Qed.

Arguments serve : simpl never.
Arguments serve_all : simpl never.
Arguments sign_pdf : simpl never.
Arguments upload_pdf : simpl never.

(** X12. Between two requests the queue is either empty, without bytes, or
    poisoned: whatever requests were served since the start, a queue that is
    not empty has its bytes (so [signedPdfBytes] is never [undefined]) and
    signing them with the queued signatures throws. *)
Theorem serve_all_settled lib env JSON_parse world requests :
  let server :=
    fst (fst (serve_all lib env JSON_parse (fresh_queue, world) requests)) in
  (server = fresh_queue \/ poisoned lib server)
  /\ (signatureQueue server <> [] ->
      exists pdfBytes e,
        signatureQueue_pdfBytes server = Some pdfBytes
        /\ snd (sign_queue lib (signatureQueue server) (Some pdfBytes))
           = Throw e).
Proof.
  cbv zeta.
  assert (H : forall state,
             settled lib (fst state) ->
             settled lib
               (fst (fst (serve_all lib env JSON_parse state requests)))).
  { induction requests as [| r rest IH]; intros state Hs; [exact Hs |].
    rewrite serve_all_cons. cbv zeta. simpl fst. apply IH.
    destruct state as [server w]. apply serve_settled, Hs. }
  specialize (H (fresh_queue, world) (or_introl eq_refl)).
  split; [exact H |].
  intros Hne. destruct H as [H | H]; [| exact H].
  rewrite H in Hne. destruct Hne. reflexivity.
Qed.



(** Requests to [/sign-pdf] on a poisoned queue: all fail, the disk and the
    collection are not touched, the queue stays poisoned. *)
Lemma serve_all_poisoned lib env JSON_parse world later :
  forall server,
    poisoned lib server ->
    let final := serve_all lib env JSON_parse (server, world)
                   (map sign_request later) in
    snd final = repeat signing_failed (length later)
    /\ snd (fst final) = world
    /\ poisoned lib (fst (fst final)).
Proof.
  induction later as [| [file signature] rest IH]; intros server Hp; cbv zeta.
  - simpl. auto.
  - change (map sign_request ((file, signature) :: rest))
      with (POST_sign_pdf (Some file) signature :: map sign_request rest).
    rewrite serve_all_cons. cbv zeta.
    destruct (sign_pdf_poisoned lib server file signature Hp)
      as (Hreply & _ & _ & Hp').
    rewrite serve_sign_pdf.
    destruct (sign_pdf lib server (Some file) signature) as [server' [l r]].
    simpl in Hreply, Hp'. subst r. simpl fst. simpl snd.
    destruct (IH server' Hp') as (Hr & Hw & Hq).
    rewrite Hr. auto.
Qed.

(** The reply and the world after an upload do not depend on the queue. *)
Lemma upload_pdf_any_queue env now id server server' world file :
  snd (upload_pdf env now id server world file)
  = snd (upload_pdf env now id server' world file)
  /\ snd (fst (upload_pdf env now id server world file))
     = snd (fst (upload_pdf env now id server' world file)).
Proof.
  unfold upload_pdf. destruct file as [upload |]; [| auto].
  destruct (writeFile env _ _ world); [| auto].
  destruct (Document_save env _ _); auto.
Qed.

Lemma upload_pdf_resets env now id server world upload :
  fst (fst (upload_pdf env now id server world (Some upload))) = fresh_queue.
Proof.
  unfold upload_pdf.
  destruct (writeFile env _ _ world); [| reflexivity].
  destruct (Document_save env _ _); reflexivity.
Qed.

(** X14. A signature that throws poisons the queue.  After a [/sign-pdf]
    whose signature throws, every later [/sign-pdf] with a file is answered
    with the error 500, whatever file and signature it brings; only an
    [/upload-pdf] with a file ends this: it is answered as on any queue, and
    the [/sign-pdf] after it is served as on the fresh queue. *)
Theorem poisoned_until_upload lib env JSON_parse world buffer signature e
      later now id upload next_file next :
  step lib signature buffer = Throw e ->
  snd (serve_all lib env JSON_parse (fresh_queue, world)
         (POST_sign_pdf (Some buffer) signature
          :: map sign_request later
          ++ [POST_upload_pdf now id (Some upload);
              POST_sign_pdf (Some next_file) next]))
  = repeat signing_failed (S (length later))
    ++ [snd (snd (upload_pdf env now id fresh_queue world (Some upload)));
        snd (snd (sign_pdf lib fresh_queue (Some next_file) next))].
Proof.
  intros He.
  rewrite serve_all_cons. cbv zeta.
  pose proof (sign_pdf_fresh_cases lib buffer signature) as Hc.
  cbv zeta in Hc. rewrite He in Hc. destruct Hc as (_ & Hreply & Hp).
  rewrite serve_sign_pdf.
  destruct (sign_pdf lib fresh_queue (Some buffer) signature)
    as [server [l r]].
  simpl in Hreply, Hp. subst r. simpl fst. simpl snd.
  rewrite serve_all_app. cbv zeta.
  destruct (serve_all_poisoned lib env JSON_parse world later server Hp)
    as (Hr & Hw & _).
  destruct (serve_all lib env JSON_parse (server, world)
              (map sign_request later)) as [[server' world'] replies].
  simpl in Hr, Hw. subst replies world'. simpl fst. simpl snd.
  simpl repeat. rewrite <- app_comm_cons. f_equal. f_equal.
  rewrite serve_all_cons. cbv zeta. rewrite serve_upload_pdf.
  pose proof (upload_pdf_resets env now id server' world upload) as Hreset.
  destruct (upload_pdf_any_queue env now id server' fresh_queue world
              (Some upload)) as [Hsame _].
  destruct (upload_pdf env now id server' world (Some upload))
    as [[server'' world''] out].
  simpl in Hreset, Hsame. subst server''. rewrite <- Hsame.
  simpl fst. simpl snd. f_equal.
  rewrite serve_all_cons. cbv zeta. rewrite serve_sign_pdf. reflexivity.
Qed.

(* ===================================================================== *)
(** * Properties of [POST /api/upload-pdf] *)
(* ===================================================================== *)

Lemma Document_save_Ok env doc world saved :
  Document_save env doc world = Ok saved
  <-> Document.valid doc = true
      /\ insert_error env doc = None
      /\ saved = {| files := files world;
                    documents := documents world ++ [doc] |}.
Proof.
  unfold Document_save.
  destruct (Document.valid doc); [| split; [discriminate | intros [? _]; discriminate]].
  destruct (insert_error env doc).
  - split; [discriminate | intros (_ & ? & _); discriminate].
  - split; [intros [= <-]; auto | intros (_ & _ & ->); reflexivity].
Qed.

Lemma valid_new id now name path :
  Document.valid (Document.new id now name path) = true
  <-> trim name <> EmptyString /\ path <> EmptyString.
Proof.
  unfold Document.valid, Document.new, Document.required. simpl.
  rewrite andb_true_r, andb_true_iff, !negb_true_iff.
  rewrite <- !not_true_iff_false, !String.eqb_eq. tauto.
Qed.

(** The upload that is answered with success: when, and what it leaves. *)
Lemma upload_pdf_success env now id server world upload :
  let path := path_join_uploads env (originalname upload) in
  let doc := Document.new id now (originalname upload) path in
  let after := upload_pdf env now id server world (Some upload) in
  snd (snd after)
  = json_uploaded "PDF uploaded successfully" (originalname upload) id
  <-> writeFile_error env path = None
      /\ trim (originalname upload) <> EmptyString
      /\ path <> EmptyString
      /\ insert_error env doc = None
      /\ snd (fst after)
         = {| files := <[path := buffer upload]> (files world);
              documents := documents world ++ [doc] |}.
Proof.
  cbv zeta. unfold upload_pdf, writeFile.
  set (path := path_join_uploads env (originalname upload)).
  set (doc := Document.new id now (originalname upload) path).
  destruct (writeFile_error env path) as [err |].
  - split; [discriminate | intros [? _]; discriminate].
  - destruct (Document_save env doc _) as [saved | err] eqn:Hsave.
    + apply Document_save_Ok in Hsave as (Hvalid & Hinsert & ->).
      apply valid_new in Hvalid as [Hname Hpath].
      split; auto 10.
    + split; [discriminate |].
      intros (_ & Hname & Hpath & Hinsert & _). exfalso.
      assert (Hok : Document_save env doc
                      {| files := <[path := buffer upload]> (files world);
                         documents := documents world |}
                    = Ok {| files := <[path := buffer upload]> (files world);
                            documents := documents world ++ [doc] |}).
      { apply Document_save_Ok. split; [apply valid_new; auto | auto]. }
      congruence.
Qed.

(** X15. An upload is answered with "PDF uploaded successfully" exactly when
    the file could be written at its path under [uploads], the name of the
    file is not blank (something is left of it once [trim] has taken the
    white space, the no-break space included, off its ends), and the
    database took the document.  The disk then
    holds the bytes at that path and is unchanged elsewhere, and the
    collection has one more document, the last one: its [fileName] is the
    trimmed name (the reply carries the name as it came), its
    [originalFilePath] is the path, and nothing is recorded on it. *)
Theorem upload_pdf_stored env now id server world upload :
  let path := path_join_uploads env (originalname upload) in
  let doc := Document.new id now (originalname upload) path in
  let after := upload_pdf env now id server world (Some upload) in
  (snd (snd after)
   = json_uploaded "PDF uploaded successfully" (originalname upload) id
   <-> writeFile_error env path = None
       /\ trim (originalname upload) <> EmptyString
       /\ path <> EmptyString
       /\ insert_error env doc = None)
  /\ (snd (snd after)
      = json_uploaded "PDF uploaded successfully" (originalname upload) id ->
      files (snd (fst after)) !! path = Some (buffer upload)
      /\ (forall other, other <> path ->
            files (snd (fst after)) !! other = files world !! other)
      /\ documents (snd (fst after)) = documents world ++ [doc]
      /\ Document.fileName doc = trim (originalname upload)
      /\ Document.originalFilePath doc = path
      /\ Document.signedFilePath doc = None
      /\ Document.signatures doc = []).
Proof.
  cbv zeta.
  pose proof (upload_pdf_success env now id server world upload) as H.
  cbv zeta in H. split.
  - rewrite H. split; [tauto |].
    intros (Hw & Hn & Hp & Hi). repeat split; try assumption.
    unfold upload_pdf, writeFile. rewrite Hw.
    assert (Hsave : forall w,
               Document_save env
                 (Document.new id now (originalname upload)
                    (path_join_uploads env (originalname upload))) w
               = Ok {| files := files w;
                       documents :=
                         documents w
                         ++ [Document.new id now (originalname upload)
                               (path_join_uploads env (originalname upload))] |}).
    { intros w. apply Document_save_Ok.
      split; [apply valid_new; auto | auto]. }
    rewrite Hsave. reflexivity.
  - intros Hreply. apply H in Hreply as (_ & _ & _ & _ & ->). simpl.
    rewrite lookup_insert_eq. repeat split; try reflexivity.
    intros other Hother. apply lookup_insert_ne. congruence.
Qed.

(** X16. When the file is written but the document is not saved (the name is
    blank, or the database refuses it), the upload is answered with the error
    500 and no document is added, yet the bytes stay on the disk at the
    path. *)
Theorem upload_pdf_orphan env now id server world upload :
  let path := path_join_uploads env (originalname upload) in
  let doc := Document.new id now (originalname upload) path in
  let after := upload_pdf env now id server world (Some upload) in
  writeFile_error env path = None ->
  trim (originalname upload) = EmptyString
  \/ is_Some (insert_error env doc) ->
  snd (snd after) = send_text 500 "Server Error"
  /\ files (snd (fst after)) !! path = Some (buffer upload)
  /\ documents (snd (fst after)) = documents world
  /\ fst (fst after) = fresh_queue.
Proof.
  cbv zeta. intros Hwrite Hfail. unfold upload_pdf, writeFile.
  rewrite Hwrite.
  destruct (Document_save env _ _) as [saved | err] eqn:Hsave.
  - apply Document_save_Ok in Hsave as (Hvalid & Hinsert & _).
    apply valid_new in Hvalid as [Hname _].
    destruct Hfail as [Hblank | [err Herr]]; congruence.
  - simpl. rewrite lookup_insert_eq. auto.
Qed.

(** X17. Two uploads that are both answered with success and whose names
    give the same path (the same name, say) leave two documents with that
    one [originalFilePath], and the disk holds there the bytes of the second
    upload: the file of the first document is overwritten. *)
Theorem upload_pdf_same_path env server world now1 id1 upload1 now2 id2
      upload2 :
  let path := path_join_uploads env (originalname upload1) in
  let first := upload_pdf env now1 id1 server world (Some upload1) in
  let second :=
    upload_pdf env now2 id2 (fst (fst first)) (snd (fst first))
      (Some upload2) in
  path_join_uploads env (originalname upload2) = path ->
  snd (snd first)
  = json_uploaded "PDF uploaded successfully" (originalname upload1) id1 ->
  snd (snd second)
  = json_uploaded "PDF uploaded successfully" (originalname upload2) id2 ->
  exists doc1 doc2,
    documents (snd (fst second)) = documents world ++ [doc1; doc2]
    /\ Document._id doc1 = id1
    /\ Document._id doc2 = id2
    /\ Document.originalFilePath doc1 = path
    /\ Document.originalFilePath doc2 = path
    /\ files (snd (fst second)) !! path = Some (buffer upload2).
Proof.
  cbv zeta. intros Hpath H1 H2.
  apply upload_pdf_success in H1 as (_ & _ & _ & _ & Hworld1).
  apply upload_pdf_success in H2 as (_ & _ & _ & _ & Hworld2).
  rewrite Hworld2, Hworld1, Hpath. simpl.
  eexists _, _. rewrite <- app_assoc.
  split; [reflexivity |]. rewrite lookup_insert_eq. auto 10.
Qed.

Lemma kept_insert world path data doc :
  kept world doc ->
  kept {| files := <[path := data]> (files world);
          documents := documents world |} doc.
Proof.
  intros (Hfile & Hrest). split; [| exact Hrest]. simpl.
  destruct (decide (path = Document.originalFilePath doc)) as [-> | Hne].
  - rewrite lookup_insert_eq. eauto.
  - rewrite lookup_insert_ne by exact Hne. exact Hfile.
Qed.

Lemma upload_pdf_world_ok env now id server world file :
  world_ok world ->
  world_ok (snd (fst (upload_pdf env now id server world file))).
Proof.
  intros Hok. unfold upload_pdf, writeFile.
  destruct file as [upload |]; [| exact Hok].
  set (path := path_join_uploads env (originalname upload)).
  destruct (writeFile_error env path); [exact Hok |].
  assert (Hwritten : Forall
            (kept {| files := <[path := buffer upload]> (files world);
                     documents := documents world |}) (documents world)).
  { eapply Forall_impl; [exact Hok |]. intros doc. apply kept_insert. }
  destruct (Document_save env _ _) as [saved | err] eqn:Hsave;
    [| exact Hwritten].
  apply Document_save_Ok in Hsave as (Hvalid & _ & ->).
  unfold world_ok. simpl. apply Forall_app. split.
  - eapply Forall_impl; [exact Hwritten |].
    intros doc (Hfile & Hrest). split; [exact Hfile | exact Hrest].
  - constructor; [| constructor].
    split; [| auto].
    simpl. rewrite lookup_insert_eq. eauto.
Qed.

Lemma serve_world_ok lib env JSON_parse server world request :
  world_ok world ->
  world_ok (snd (fst (serve lib env JSON_parse (server, world) request))).
Proof.
  intros Hok.
  destruct request as [now id file | file signature | file signatures].
  - rewrite serve_upload_pdf. apply upload_pdf_world_ok, Hok.
  - rewrite serve_sign_pdf. exact Hok.
  - unfold serve.
    destruct (apply_signatures_route lib JSON_parse file signatures).
    exact Hok.
Qed.

(** X18. Whatever requests are served, every document of the collection has
    its original file on the disk, passes the validation of the schema, and
    has nothing recorded on it: no signature, no signed path, no date of
    signing.  The handlers that sign never write to the disk or to the
    collection, and nothing is ever removed from the disk. *)
Theorem serve_all_world_ok lib env JSON_parse server world requests :
  world_ok world ->
  let final :=
    snd (fst (serve_all lib env JSON_parse (server, world) requests)) in
  forall doc,
    In doc (documents final) ->
    is_Some (files final !! Document.originalFilePath doc)
    /\ Document.valid doc = true
    /\ Document.signatures doc = []
    /\ Document.signedFilePath doc = None
    /\ Document.signedAt doc = None.
Proof.
  intros Hok. cbv zeta.
  assert (H : world_ok
                (snd (fst (serve_all lib env JSON_parse (server, world)
                             requests)))).
  { revert server world Hok.
    induction requests as [| r rest IH]; intros server world Hok;
      [exact Hok |].
    rewrite serve_all_cons. cbv zeta. simpl fst.
    pose proof (serve_world_ok lib env JSON_parse server world r Hok) as Hr.
    destruct (serve lib env JSON_parse (server, world) r)
      as [[server' world'] out].
    apply IH, Hr. }
  intros doc Hdoc. unfold world_ok in H.
  rewrite Forall_forall in H. apply H. apply list_elem_of_In. exact Hdoc.
Qed.

Lemma apply_signatures_route_sends_witness :
  apply_signatures_route Sample.lib SampleServer.parse
    (Some Sample.blank) (Some "{}")
  = ([], send_pdf Sample.blank).
Proof.
  refine (proj1 (proj2 (proj2 (apply_signatures_route_sends Sample.lib
                                 SampleServer.parse
                                 (Some Sample.blank) (Some "{}"))
                          Sample.blank "{}" eq_refl eq_refl _))
            eq_refl).
  discriminate.
Defined.

Lemma serve_all_settled_witness :
  exists pdfBytes e,
    pdfBytes = Sample.blank
    /\ snd (sign_queue Sample.lib [Sample.off_page] (Some pdfBytes)) = Throw e.
Proof.
  destruct (proj2 (serve_all_settled Sample.lib SampleServer.env
                     SampleServer.parse SampleServer.empty_world
                     [POST_sign_pdf (Some Sample.blank) Sample.off_page]))
    as (pdfBytes & e & Hbytes & Hthrow).
  - vm_compute. discriminate.
  - exists pdfBytes, e. split; [| exact Hthrow].
    vm_compute in Hbytes. injection Hbytes as <-. reflexivity.
Defined.

Lemma poisoned_until_upload_witness :
  snd (serve_all Sample.lib SampleServer.env SampleServer.parse
         (fresh_queue, SampleServer.empty_world)
         [POST_sign_pdf (Some Sample.blank) Sample.off_page;
          POST_sign_pdf (Some Sample.blank) Sample.jane;
          POST_upload_pdf 0 "id1" (Some SampleServer.contract);
          POST_sign_pdf (Some Sample.blank) Sample.jane])
  = [signing_failed; signing_failed;
     json_uploaded "PDF uploaded successfully" "contract.pdf" "id1";
     reply (send_pdf [Byte.x01])].
Proof.
  exact (poisoned_until_upload Sample.lib SampleServer.env SampleServer.parse
           SampleServer.empty_world Sample.blank Sample.off_page _
           [(Sample.blank, Sample.jane)] 0 "id1" SampleServer.contract
           Sample.blank Sample.jane eq_refl).
Defined.

Lemma upload_pdf_stored_witness :
  snd (snd (upload_pdf SampleServer.env 0 "id1" fresh_queue
              SampleServer.empty_world (Some SampleServer.contract)))
  = json_uploaded "PDF uploaded successfully" "contract.pdf" "id1"
  /\ snd (snd (upload_pdf SampleServer.env 0 "id1" fresh_queue
                 SampleServer.empty_world (Some SampleServer.nbsp_name)))
     <> json_uploaded "PDF uploaded successfully"
          (originalname SampleServer.nbsp_name) "id1".
Proof.
  split.
  - refine (proj2 (proj1 (upload_pdf_stored SampleServer.env 0 "id1"
                            fresh_queue SampleServer.empty_world
                            SampleServer.contract)) _).
    repeat split; try reflexivity; discriminate.
  - intros H.
    apply (proj1 (proj1 (upload_pdf_stored SampleServer.env 0 "id1"
                           fresh_queue SampleServer.empty_world
                           SampleServer.nbsp_name))) in H.
    destruct H as (_ & Hname & _). apply Hname. reflexivity.
Defined.

Lemma upload_pdf_orphan_witness :
  snd (snd (upload_pdf SampleServer.env 0 "id1" fresh_queue
              SampleServer.empty_world (Some SampleServer.blank_name)))
  = send_text 500 "Server Error"
  /\ files (snd (fst (upload_pdf SampleServer.env 0 "id1" fresh_queue
                        SampleServer.empty_world
                        (Some SampleServer.blank_name))))
     !! "/srv/backend/uploads/   "
     = Some [Byte.x00].
Proof.
  destruct (upload_pdf_orphan SampleServer.env 0 "id1" fresh_queue
              SampleServer.empty_world SampleServer.blank_name eq_refl
              (or_introl eq_refl))
    as (Hreply & Hfile & _).
  split; [exact Hreply | exact Hfile].
Defined.

Lemma upload_pdf_same_path_witness :
  exists doc1 doc2,
    Document.originalFilePath doc1 = "/srv/backend/uploads/contract.pdf"
    /\ Document.originalFilePath doc2 = "/srv/backend/uploads/contract.pdf"
    /\ Document._id doc1 = "id1"
    /\ Document._id doc2 = "id2".
Proof.
  destruct (upload_pdf_same_path SampleServer.env fresh_queue
              SampleServer.empty_world 0 "id1" SampleServer.contract
              1 "id2" SampleServer.contract_again eq_refl eq_refl eq_refl)
    as (doc1 & doc2 & _ & H1 & H2 & H3 & H4 & _).
  exists doc1, doc2. auto.
Defined.

Lemma serve_all_world_ok_witness :
  let final :=
    snd (fst (serve_all Sample.lib SampleServer.env SampleServer.parse
                (fresh_queue, SampleServer.empty_world)
                [POST_upload_pdf 0 "id1" (Some SampleServer.contract);
                 POST_sign_pdf (Some Sample.blank) Sample.jane])) in
  is_Some (files final !! "/srv/backend/uploads/contract.pdf").
Proof.
  refine (proj1 (serve_all_world_ok Sample.lib SampleServer.env
                   SampleServer.parse fresh_queue SampleServer.empty_world
                   [POST_upload_pdf 0 "id1" (Some SampleServer.contract);
                    POST_sign_pdf (Some Sample.blank) Sample.jane]
                   _
                   (Document.new "id1" 0 "contract.pdf"
                      "/srv/backend/uploads/contract.pdf") _)).
  - constructor.
  - vm_compute. left. reflexivity.
Defined.

(** ** Requests without a file, and coordinates on the border *)

(** X19. A request without a file changes nothing, on any of the three
    routes: the queue, the disk and the collection are as before, and the
    answer is a 400 with a message. *)
Theorem serve_without_file lib env JSON_parse state request :
  has_file request = false ->
  let after := serve lib env JSON_parse state request in
  fst after = state
  /\ exists msg, snd (snd after) = reply (json_msg 400 msg).
Proof.
  intros H. destruct state as [server world].
  destruct request as [now id [f |] | [f |] signature | [f |] signatures];
    try discriminate H; cbv zeta; unfold serve;
    (split; [reflexivity | eexists; reflexivity]).
Qed.

Lemma serve_without_file_witness :
  fst (serve Sample.lib SampleServer.env SampleServer.parse
         (mkServer [Sample.off_page] (Some Sample.blank),
          SampleServer.empty_world)
         (POST_sign_pdf None Sample.jane))
  = (mkServer [Sample.off_page] (Some Sample.blank), SampleServer.empty_world).
Proof.
  exact (proj1 (serve_without_file Sample.lib SampleServer.env
                  SampleServer.parse
                  (mkServer [Sample.off_page] (Some Sample.blank),
                   SampleServer.empty_world)
                  (POST_sign_pdf None Sample.jane) eq_refl)).
Defined.

Lemma outside_page_false (x y pageWidth pageHeight : Q) :
  outside_page x y pageWidth pageHeight = false <->
  (0 <= x <= pageWidth /\ 0 <= y <= pageHeight)%Q.
Proof.
  rewrite <- not_true_iff_false, outside_page_true.
  split.
  - intros H. repeat split; apply Qnot_lt_le; intros Hlt; apply H; auto.
  - intros [[H1 H2] [H3 H4]] [H | [H | [H | H]]];
      eapply Qlt_not_le; eassumption.
Qed.

(** X20. The advisory check is exact and its borders are inside: when
    [signPdfWithImage] returns, it has written nothing if
    [0 <= x <= width] and [0 <= y <= height] on the target page, the borders
    included, and the one warning otherwise. *)
Theorem signPdfWithImage_warns_outside lib pdfBytes pdfDoc page imageDataUrl
      x y pageNumber out :
  PDFDocument_load lib pdfBytes = Ok pdfDoc ->
  getPages pdfDoc !! Z.to_nat (pageNumber - 1) = Some page ->
  snd (signPdfWithImage lib pdfBytes imageDataUrl x y pageNumber) = Ok out ->
  let events :=
    fst (signPdfWithImage lib pdfBytes imageDataUrl x y pageNumber) in
  ((0 <= x <= getWidth page /\ 0 <= y <= getHeight page)%Q -> events = [])
  /\ (~ (0 <= x <= getWidth page /\ 0 <= y <= getHeight page)%Q ->
      events = [warn_coordinates x y (getWidth page) (getHeight page)]).
Proof.
  intros Hload Hpage Hout. cbv zeta.
  assert (Hevents : fst (signPdfWithImage lib pdfBytes imageDataUrl x y
                           pageNumber)
                    = coordinate_events x y page).
  { revert Hout. unfold signPdfWithImage. rewrite rethrow_cases.
    destruct (snd (signPdfWithImage_try lib pdfBytes imageDataUrl x y
                     pageNumber)) as [bytes | e] eqn:Htry; [| discriminate].
    intros _. simpl fst.
    unfold signPdfWithImage_try in *.
    destruct (snd (locate_page lib pdfBytes x y pageNumber))
      as [[doc i] | e] eqn:Hlocate;
      [| rewrite (bind_snd_Throw _ _ _ Hlocate) in Htry; discriminate].
    rewrite (bind_snd_Ok _ _ _ Hlocate) in Htry.
    destruct (locate_page_inv _ _ _ _ _ _ _ Hlocate)
      as (Hload' & _ & -> & page' & Hpage' & Hfst).
    assert (doc = pdfDoc) by congruence. subst doc.
    assert (page' = page) by congruence. subst page'.
    rewrite bind_fst, Hlocate, Hfst.
    rewrite bind_fst, embedImage_silent.
    destruct (snd (embedImage lib pdfDoc imageDataUrl)) as [[image d] | e];
      simpl; rewrite ?app_nil_r; reflexivity. }
  rewrite Hevents. unfold coordinate_events.
  destruct (outside_page x y (getWidth page) (getHeight page)) eqn:Ho.
  - split; [| reflexivity].
    intros Hin. apply outside_page_false in Hin. congruence.
  - split; [reflexivity |].
    intros Hnot. destruct Hnot. apply outside_page_false, Ho.
Qed.

Lemma signPdfWithImage_warns_outside_witness :
  fst (signPdfWithImage Sample.lib Sample.blank
         "data:image/png;base64,iVBORw0KGgo=" 612 0 1) = [].
Proof.
  refine (proj1 (signPdfWithImage_warns_outside Sample.lib Sample.blank _ _
                   "data:image/png;base64,iVBORw0KGgo=" 612 0 1 [Byte.x01]
                   eq_refl eq_refl eq_refl) _).
  simpl. unfold Qle; simpl. lia.
Defined.
